(** * Listen-together music rooms: a shallow embedding of [main.py]

    The development follows the source file top to bottom: the [Song] and
    [MusicRoom] dataclasses with the methods of [MusicRoom], the URL
    resolution of [MusicAPI], and the command handlers of
    [ListenTogetherPlugin] acting on the plugin's three dictionaries.

    Python objects are mutable and shared, so [Song] instances live in an
    object store and the playlist and the pending search results hold
    references into it.  A [MusicRoom] is only ever reached through the
    [rooms] dictionary, so it is stored there by value and an in-place
    mutation is an insert at its key.  Handlers are modelled as running one
    after the other (the interleaving of coroutines at an [await] is outside
    this model).

    What the handlers get from outside the file is a parameter of theirs:
    the providers' answers, the stripping of the command word, and the
    number that [re.search] and [int] read off a message. *)

From Stdlib Require Import ZArith Lia Ascii String.
From stdpp Require Import gmap strings list fin_maps pretty.

(** ** Data model *)

(** A reference to a [Song] object: its index in the object store. *)
Abbreviation loc := nat (only parsing).

(** [class Song] (a dataclass; the fields [id] and [name] are prefixed). *)
Record Song := mkSong {
  song_id : string;
  song_name : string;
  artist : string;
  album : string;
  duration : Z;
  url : string;
  cover : string;
  source : string
}.

Definition with_url (s : Song) (u : string) : Song :=
  mkSong (song_id s) (song_name s) (artist s) (album s) (duration s) u
         (cover s) (source s).

(** A Python [dict] with string keys and values, in insertion order. *)
Definition pydict := list (string * string).

Fixpoint dict_mem (k : string) (d : pydict) : bool :=
  match d with
  | [] => false
  | (k', _) :: d' => if String.eqb k' k then true else dict_mem k d'
  end.

(** [d[k] = v]: overwrite in place, or append a new entry. *)
Fixpoint dict_set (k v : string) (d : pydict) : pydict :=
  match d with
  | [] => [(k, v)]
  | (k', v') :: d' =>
      if String.eqb k' k then (k, v) :: d' else (k', v') :: dict_set k v d'
  end.

(** [del d[k]] for a key that is present (no change otherwise). *)
Fixpoint dict_del (k : string) (d : pydict) : pydict :=
  match d with
  | [] => []
  | (k', v') :: d' =>
      if String.eqb k' k then d' else (k', v') :: dict_del k d'
  end.

(** [class MusicRoom].  [current_index] is a Python [int], [create_time] the
    clock reading taken when the room is built. *)
Record MusicRoom := mkRoom {
  room_id : string;
  owner_id : string;
  owner_name : string;
  group_id : string;
  playlist : list loc;
  current_index : Z;
  members : pydict;
  is_playing : bool;
  create_time : Z;
  play_mode : string
}.

Definition with_playlist (r : MusicRoom) (p : list loc) : MusicRoom :=
  mkRoom (room_id r) (owner_id r) (owner_name r) (group_id r) p
         (current_index r) (members r) (is_playing r) (create_time r)
         (play_mode r).

Definition with_current_index (r : MusicRoom) (i : Z) : MusicRoom :=
  mkRoom (room_id r) (owner_id r) (owner_name r) (group_id r) (playlist r)
         i (members r) (is_playing r) (create_time r) (play_mode r).

Definition with_members (r : MusicRoom) (m : pydict) : MusicRoom :=
  mkRoom (room_id r) (owner_id r) (owner_name r) (group_id r) (playlist r)
         (current_index r) m (is_playing r) (create_time r) (play_mode r).

Definition with_is_playing (r : MusicRoom) (b : bool) : MusicRoom :=
  mkRoom (room_id r) (owner_id r) (owner_name r) (group_id r) (playlist r)
         (current_index r) (members r) b (create_time r) (play_mode r).

Definition with_play_mode (r : MusicRoom) (m : string) : MusicRoom :=
  mkRoom (room_id r) (owner_id r) (owner_name r) (group_id r) (playlist r)
         (current_index r) (members r) (is_playing r) (create_time r) m.

(** [len(self.playlist)] as a Python integer. *)
Definition plen (r : MusicRoom) : Z := Z.of_nat (length (playlist r)).

(** ** The methods of [MusicRoom] *)

Module Room.

Definition add_song (r : MusicRoom) (song : loc) : MusicRoom :=
  with_playlist r (playlist r ++ [song]).

(** [playlist.pop(index)] behind the range test; [None] out of range. *)
Definition remove_song (r : MusicRoom) (index : Z)
  : MusicRoom * option loc :=
  if ((0 <=? index) && (index <? plen r))%Z
  then (with_playlist r (delete (Z.to_nat index) (playlist r)),
        playlist r !! Z.to_nat index)
  else (r, None).

Definition get_current_song (r : MusicRoom) : option loc :=
  if ((0 <=? current_index r) && (current_index r <? plen r))%Z
  then playlist r !! Z.to_nat (current_index r)
  else None.

(** [random.randint(a, b)]: some integer of [a..b], picked by [draw]. *)
Definition randint (a b : Z) (draw : nat) : Z :=
  (a + Z.of_nat draw mod (b - a + 1))%Z.

Definition next_song (r : MusicRoom) (draw : nat)
  : MusicRoom * option loc :=
  match playlist r with
  | [] => (r, None)
  | _ :: _ =>
      let r' :=
        if String.eqb (play_mode r) "random"
        then with_current_index r (randint 0 (plen r - 1) draw)
        else with_current_index r ((current_index r + 1) mod plen r)%Z in
      (r', get_current_song r')
  end.

Definition prev_song (r : MusicRoom) : MusicRoom * option loc :=
  match playlist r with
  | [] => (r, None)
  | _ :: _ =>
      let r' := with_current_index r ((current_index r - 1) mod plen r)%Z in
      (r', get_current_song r')
  end.

Definition add_member (r : MusicRoom) (user_id user_name : string)
  : MusicRoom :=
  with_members r (dict_set user_id user_name (members r)).

Definition remove_member (r : MusicRoom) (user_id : string)
  : MusicRoom * bool :=
  if dict_mem user_id (members r)
  then (with_members r (dict_del user_id (members r)), true)
  else (r, false).

End Room.

(** ** [MusicAPI]: search fallback and URL resolution *)

(** What a provider's search response yields for one hit, before the
    [Song] object is built. *)
Record Track := mkTrack {
  t_id : string;
  t_name : string;
  t_artist : string;
  t_album : string;
  t_duration : Z;
  t_cover : string
}.

(** The [Song(...)] calls of [_search_qq] and [_search_netease]: [url] is
    left at its default. *)
Definition qq_song (t : Track) : Song :=
  mkSong (t_id t) (t_name t) (t_artist t) (t_album t) (t_duration t) ""
         (t_cover t) "qq".

Definition netease_song (t : Track) : Song :=
  mkSong (t_id t) (t_name t) (t_artist t) (t_album t) (t_duration t) ""
         (t_cover t) "netease".

(** [MusicAPI.search]: QQ first, NetEase only when QQ gave nothing.  The
    arguments are what the two providers answer (empty on any failure). *)
Definition search (qq netease : list Track) : list Song :=
  match qq with
  | [] => netease_song <$> netease
  | _ :: _ => qq_song <$> qq
  end.

(** ** The number a message carries

    The selection, skip and removal handlers read a number off the message
    with [re.search(r'(\d+)', message)] and [int(match.group(1))].  Both
    belong to the standard library, so the handlers below take what the two
    calls come to as a parameter; [Py] then models the two calls for a given
    interpreter. *)
Inductive Number :=
  | NoMatch
  | ValueError
  | Int (n : Z).

Module Py.

(** A Python [str] is a sequence of code points.  A text of this model
    holds the UTF-8 encoding of one, and [code_points] decodes it, one byte
    at a time: [need] bytes are still to come for the character begun,
    [acc] holds its bits so far, and [low] is the least code point that
    takes so many bytes.  Bytes that encode nothing decode to U+FFFD. *)
Definition bad : Z := 0xFFFD.

Definition byte (c : ascii) : Z := Z.of_N (N_of_ascii c).

Definition idle : nat * Z * Z := (0%nat, 0%Z, 0%Z).

Definition start (b : Z) : list Z * (nat * Z * Z) :=
  if (b <? 0x80)%Z then ([b], idle)
  else if (b <? 0xC0)%Z then ([bad], idle)
  else if (b <? 0xE0)%Z then ([], (1%nat, b - 0xC0, 0x80)%Z)
  else if (b <? 0xF0)%Z then ([], (2%nat, b - 0xE0, 0x800)%Z)
  else if (b <? 0xF8)%Z then ([], (3%nat, b - 0xF0, 0x10000)%Z)
  else ([bad], idle).

Definition step (st : nat * Z * Z) (b : Z) : list Z * (nat * Z * Z) :=
  let '(need, acc, low) := st in
  match need with
  | O => start b
  | S more =>
      if ((0x80 <=? b) && (b <? 0xC0))%Z then
        let acc := (acc * 64 + (b - 0x80))%Z in
        match more with
        | O =>
            ([if ((low <=? acc) && (acc <=? 0x10FFFF))%Z then acc else bad],
             idle)
        | S _ => ([], (more, acc, low))
        end
      else (bad :: (start b).1, (start b).2)
  end.

Fixpoint decode (st : nat * Z * Z) (s : string) : list Z :=
  match s with
  | EmptyString => match st.1.1 with O => [] | S _ => [bad] end
  | String c s' => (step st (byte c)).1 ++ decode (step st (byte c)).2 s'
  end.

Definition code_points (s : string) : list Z := decode idle s.

Section Interpreter.

(** The interpreter's Unicode database, as far as decimal digits (category
    Nd) go: beyond ASCII, the digit zero of every script that has them.
    Unicode keeps the ten digits of a script together and in order. *)
Variable scripts : list Z.

(** [sys.get_int_max_str_digits()]: 4300 unless configured, and 0 for no
    limit, which also stands for an interpreter older than the limit. *)
Variable max_str_digits : Z.

(** The value of a character as a decimal digit ([Py_UNICODE_TODECIMAL]),
    which both [\d] and [int] go by. *)
Definition decimal (c : Z) : option Z :=
  if ((0x30 <=? c) && (c <? 0x3A))%Z then Some (c - 0x30)%Z
  else
    match find (fun zero => ((zero <=? c) && (c <? zero + 10))%Z) scripts with
    | Some zero => Some (c - zero)%Z
    | None => None
    end.

(** The digits, by value, of the run of decimal digits a text opens with. *)
Fixpoint run (cs : list Z) : list Z :=
  match cs with
  | [] => []
  | c :: cs' =>
      match decimal c with
      | Some d => d :: run cs'
      | None => []
      end
  end.

(** [re.search(r'(\d+)', s)]: the leftmost match, which [+] makes as long
    as it can be; [group(1)] is given by the values of its digits. *)
Fixpoint re_search (cs : list Z) : option (list Z) :=
  match cs with
  | [] => None
  | c :: cs' =>
      match decimal c with
      | Some _ => Some (run cs)
      | None => re_search cs'
      end
  end.

(** [int] of a run of decimal digits: [ValueError] beyond the limit of
    digits (leading zeros count), else the number in base ten. *)
Definition int (digits : list Z) : option Z :=
  if ((0 <? max_str_digits)
      && (max_str_digits <? Z.of_nat (length digits)))%Z
  then None
  else Some (foldl (fun n d => (10 * n + d)%Z) 0%Z digits).

(** The two calls on a message.  The handlers [strip()] the message first,
    which takes white space off its ends and so none of its digits. *)
Definition read_number (message : string) : Number :=
  match re_search (code_points message) with
  | None => NoMatch
  | Some digits =>
      match int digits with
      | None => ValueError
      | Some n => Int n
      end
  end.

End Interpreter.
End Py.

(** The decimal digits beyond ASCII of Unicode 14.0.0, the database of
    CPython 3.11: the zero of each script. *)
Definition unicode_14 : list Z :=
  [ 0x660; 0x6F0; 0x7C0; 0x966; 0x9E6; 0xA66; 0xAE6; 0xB66; 0xBE6; 0xC66;
    0xCE6; 0xD66; 0xDE6; 0xE50; 0xED0; 0xF20; 0x1040; 0x1090; 0x17E0;
    0x1810; 0x1946; 0x19D0; 0x1A80; 0x1A90; 0x1B50; 0x1BB0; 0x1C40; 0x1C50;
    0xA620; 0xA8D0; 0xA900; 0xA9D0; 0xA9F0; 0xAA50; 0xABF0; 0xFF10;
    0x104A0; 0x10D30; 0x11066; 0x110F0; 0x11136; 0x111D0; 0x112F0; 0x11450;
    0x114D0; 0x11650; 0x116C0; 0x11730; 0x118E0; 0x11950; 0x11C50; 0x11D50;
    0x11DA0; 0x16A60; 0x16AC0; 0x16B50; 0x1D7CE; 0x1D7D8; 0x1D7E2; 0x1D7EC;
    0x1D7F6; 0x1E140; 0x1E2F0; 0x1E950; 0x1FBF0 ]%Z.

(** ** [ListenTogetherPlugin] *)

(** The part of an [AstrMessageEvent] the handlers read. *)
Record Event := mkEvent {
  get_group_id : string;
  get_sender_id : string;
  get_sender_name : string;
  message_str : string
}.

(** What a handler yields through [event.plain_result].  Each constructor
    stands for one message of the source; [reply_text] gives the text up to
    the first interpolated field. *)
Inductive Reply :=
  | RoomAlreadyExists
  | RoomCreated (user_name : string)
  | NoRoomToJoin
  | AlreadyInRoom
  | Joined (user_name : string) (count : nat)
  | NotInAnyRoom
  | OwnerMustClose
  | Left (user_name : string)
  | NoRoom
  | OnlyOwnerCloses
  | RoomClosed
  | KeywordMissing
  | JoinRoomFirst
  | Searching (keyword : string)
  | NothingFound
  | SearchResults (songs : list loc)
  | NotInRoom
  | NoPendingSearch
  | BadNumber (example : string)
  | IndexOutOfRange
  | SongAdded (user_name : string) (song : loc) (count : nat)
  | PlaylistView (songs : list loc) (cursor : Z)
  | PlaylistEmptyAddFirst
  | AlreadyPlaying
  | NowPlaying (song : loc) (link : string)
  | NoCurrentSong
  | NothingPlaying
  | Paused
  | PlaylistEmpty
  | NextIs (song : loc) (link : string)
  | PrevIs (song : loc) (link : string)
  | SkippedTo (index : Z) (song : loc) (link : string)
  | Removed (song : loc)
  | OnlyOwnerClears
  | Cleared
  | ModeSequence
  | ModeRandom
  | ModeQuery (mode : string)
  | RoomInfoView (room : MusicRoom)
  | HelpText.

Definition reply_text (r : Reply) : string :=
  match r with
  | RoomAlreadyExists => "❌ 该群已存在音乐房间，请先关闭现有房间"
  | RoomCreated _ => "🏠 音乐房间创建成功！"
  | NoRoomToJoin => "❌ 当前没有可加入的音乐房间，使用 /创建房间 创建一个"
  | AlreadyInRoom => "你已经在这个房间里了"
  | Joined _ _ => "✅ "
  | NotInAnyRoom => "❌ 你不在任何音乐房间里"
  | OwnerMustClose => "你是房主，请使用 /关闭房间 来关闭房间"
  | Left _ => "👋 "
  | NoRoom => "❌ 当前没有音乐房间"
  | OnlyOwnerCloses => "❌ 只有房主才能关闭房间"
  | RoomClosed => "🏠 音乐房间已关闭"
  | KeywordMissing => "请输入歌曲名称，例如: /点歌 稻香"
  | JoinRoomFirst => "❌ 请先加入音乐房间，使用 /加入房间"
  | Searching _ => "🔍 正在搜索: "
  | NothingFound => "❌ 未找到相关歌曲，请尝试其他关键词"
  | SearchResults _ => "搜索结果:"
  | NotInRoom => "❌ 你不在音乐房间里"
  | NoPendingSearch => "❌ 请先使用 /点歌 搜索歌曲"
  | BadNumber example => "❌ 请输入正确的序号，例如: " +:+ example
  | IndexOutOfRange => "❌ 序号超出范围"
  | SongAdded _ _ _ => "✅ "
  | PlaylistView [] _ => "📋 播放列表为空"
  | PlaylistView (_ :: _) _ => "📋 播放列表:"
  | PlaylistEmptyAddFirst => "❌ 播放列表为空，请先添加歌曲"
  | AlreadyPlaying => "▶️ 音乐正在播放中"
  | NowPlaying _ _ => "▶️ 开始播放"
  | NoCurrentSong => "❌ 无法获取当前歌曲"
  | NothingPlaying => "⏸️ 当前没有正在播放的音乐"
  | Paused => "⏸️ 音乐已暂停"
  | PlaylistEmpty => "❌ 播放列表为空"
  | NextIs _ _ => "⏭️ 下一首"
  | PrevIs _ _ => "⏮️ 上一首"
  | SkippedTo _ _ _ => "🎵 切换到第 "
  | Removed _ => "✅ 已移除: "
  | OnlyOwnerClears => "❌ 只有房主才能清空播放列表"
  | Cleared => "✅ 播放列表已清空"
  | ModeSequence => "🔀 播放模式: 顺序播放"
  | ModeRandom => "🔀 播放模式: 随机播放"
  | ModeQuery _ => "当前播放模式: "
  | RoomInfoView _ => "🏠 房间信息"
  | HelpText => "🎵 一起听音乐 - 帮助"
  end.

(** The source marks every refusal with a leading cross mark. *)
Definition is_error (r : Reply) : bool :=
  String.prefix "❌" (reply_text r).

(** The plugin object: its three dictionaries, together with the store of
    [Song] objects they refer to and the trace of calls of
    [MusicAPI.get_song_url] (the reference passed to each, oldest first). *)
Record State := mkState {
  rooms : gmap string MusicRoom;
  user_room_map : gmap string string;
  search_results : gmap string (list loc);
  store : list Song;
  url_requests : list loc
}.

Definition with_rooms (st : State) (m : gmap string MusicRoom) : State :=
  mkState m (user_room_map st) (search_results st) (store st)
          (url_requests st).

Definition with_user_room_map (st : State) (m : gmap string string) : State :=
  mkState (rooms st) m (search_results st) (store st) (url_requests st).

Definition with_search_results (st : State) (m : gmap string (list loc))
  : State :=
  mkState (rooms st) (user_room_map st) m (store st) (url_requests st).

(** [ListenTogetherPlugin.__init__]. *)
Definition init : State := mkState ∅ ∅ ∅ [] [].

(** The inbound commands, one per [@filter.command] handler, each with what
    the outside world contributes to that run: the clock for a new room, the
    providers' answers for a search, the random draw for a next song. *)
Inductive Command :=
  | CreateRoom (now : Z)
  | JoinRoom
  | LeaveRoom
  | CloseRoom
  | SearchSong (qq netease : list Track)
  | SelectSong
  | ShowPlaylist
  | Play
  | Pause
  | NextSong (draw : nat)
  | PrevSong
  | SkipTo
  | RemoveSong
  | ClearPlaylist
  | SetPlayMode
  | RoomInfo
  | HelpCmd.

Module Plugin.
Section Handlers.

(** The network behind [MusicAPI._get_qq_song_url] and
    [_get_netease_song_url]: the stream link the provider gives for a song
    id when asked as the [n]-th request, or [None] when the call fails or
    carries no link. *)
Variable qq_stream : nat -> string -> option string.
Variable netease_stream : nat -> string -> option string.

(** [re.sub(r'^[/,，.\s]*CMD\s*', '', message).strip()] for the command
    word [CMD]. *)
Variable strip_command : string -> string -> string.

(** What [re.search(r'(\d+)', message)] and then [int(match.group(1))] come
    to for [message = event.message_str.strip()], given [message_str]. *)
Variable read_number : string -> Number.

(** The index a message names, as the selection, skip and removal handlers
    compute it: none when [re.search] finds no number and none when [int]
    raises, which each handler answers with the same message, and else
    [int(match.group(1)) - 1]. *)
Definition parse_index (message : string) : option Z :=
  match read_number message with
  | NoMatch => None
  | ValueError => None
  | Int n => Some (n - 1)%Z
  end.

Definition _get_qq_song_url (n : nat) (song_mid : string) : string :=
  match qq_stream n song_mid with
  | Some link => link
  | None => "https://y.qq.com/n/ryqq/songDetail/" +:+ song_mid
  end.

Definition _get_netease_song_url (n : nat) (id : string) : string :=
  match netease_stream n id with
  | Some link => link
  | None => "https://music.163.com/song?id=" +:+ id
  end.

Definition get_song_url (n : nat) (song : Song) : string :=
  if String.eqb (source song) "qq"
  then _get_qq_song_url n (song_id song)
  else _get_netease_song_url n (song_id song).

(** [song.url = await self.music_api.get_song_url(song)] on the object
    behind [l]; the call is recorded in the trace. *)
Definition fetch_url (st : State) (l : loc) : State * string :=
  match store st !! l with
  | Some s =>
      let u := get_song_url (length (url_requests st)) s in
      (mkState (rooms st) (user_room_map st) (search_results st)
               (<[l := with_url s u]> (store st)) (url_requests st ++ [l]),
       u)
  | None => (st, "")
  end.

(** [if not song.url: song.url = await ...get_song_url(song)], then the
    link the reply shows. *)
Definition ensure_url (st : State) (l : loc) : State * string :=
  match store st !! l with
  | Some s => if String.eqb (url s) "" then fetch_url st l else (st, url s)
  | None => (st, "")
  end.

Definition _get_group_key (group_id : string) : string :=
  "room_" +:+ group_id.

Definition _get_user_room (st : State) (user_id group_id : string)
  : option MusicRoom :=
  rooms st !! _get_group_key group_id.

(** [str(event.get_group_id()) if event.get_group_id() else "private"] *)
Definition group_of (e : Event) : string :=
  if String.eqb (get_group_id e) "" then "private" else get_group_id e.

(** [event.get_sender_name() or "未知用户"] *)
Definition name_of (e : Event) : string :=
  if String.eqb (get_sender_name e) "" then "未知用户"
  else get_sender_name e.

(** [f"{user_id}_{group_id}"] *)
Definition user_key (user_id group_id : string) : string :=
  user_id +:+ "_" +:+ group_id.

(** A room mutated in place is seen through [self.rooms] at its key. *)
Definition put_room (st : State) (group_id : string) (room : MusicRoom)
  : State :=
  with_rooms st (<[_get_group_key group_id := room]> (rooms st)).

Definition create_room (st : State) (e : Event) (now : Z)
  : State * list Reply :=
  let group_id := group_of e in
  let user_id := get_sender_id e in
  let user_name := name_of e in
  let room_key := _get_group_key group_id in
  match rooms st !! room_key with
  | Some _ => (st, [RoomAlreadyExists])
  | None =>
      let room :=
        mkRoom room_key user_id user_name group_id [] (-1) [] false now
               "sequence" in
      let room := Room.add_member room user_id user_name in
      let st := with_rooms st (<[room_key := room]> (rooms st)) in
      let st :=
        with_user_room_map st
          (<[user_key user_id group_id := room_key]> (user_room_map st)) in
      (st, [RoomCreated user_name])
  end.

Definition join_room (st : State) (e : Event) : State * list Reply :=
  let group_id := group_of e in
  let user_id := get_sender_id e in
  let user_name := name_of e in
  match _get_user_room st user_id group_id with
  | None => (st, [NoRoomToJoin])
  | Some room =>
      if dict_mem user_id (members room) then (st, [AlreadyInRoom])
      else
        let room := Room.add_member room user_id user_name in
        let st := put_room st group_id room in
        let st :=
          with_user_room_map st
            (<[user_key user_id group_id := room_id room]>
               (user_room_map st)) in
        (st, [Joined user_name (length (members room))])
  end.

Definition leave_room (st : State) (e : Event) : State * list Reply :=
  let group_id := group_of e in
  let user_id := get_sender_id e in
  let user_name := name_of e in
  match _get_user_room st user_id group_id with
  | None => (st, [NotInAnyRoom])
  | Some room =>
      if String.eqb user_id (owner_id room) then (st, [OwnerMustClose])
      else
        let room := fst (Room.remove_member room user_id) in
        let st := put_room st group_id room in
        let st :=
          with_user_room_map st
            (delete (user_key user_id group_id) (user_room_map st)) in
        (st, [Left user_name])
  end.

Definition close_room (st : State) (e : Event) : State * list Reply :=
  let group_id := group_of e in
  let user_id := get_sender_id e in
  match _get_user_room st user_id group_id with
  | None => (st, [NoRoom])
  | Some room =>
      if negb (String.eqb user_id (owner_id room))
      then (st, [OnlyOwnerCloses])
      else
        let room_key := _get_group_key group_id in
        let urm :=
          foldl (fun m member => delete (user_key (fst member) group_id) m)
                (user_room_map st) (members room) in
        let st := with_user_room_map st urm in
        let st := with_rooms st (delete room_key (rooms st)) in
        (st, [RoomClosed])
  end.

Definition search_song (st : State) (e : Event) (qq netease : list Track)
  : State * list Reply :=
  let group_id := group_of e in
  let user_id := get_sender_id e in
  let keyword := strip_command "点歌" (message_str e) in
  if String.eqb keyword "" then (st, [KeywordMissing])
  else
    match _get_user_room st user_id group_id with
    | None => (st, [JoinRoomFirst])
    | Some room =>
        match search qq netease with
        | [] => (st, [Searching keyword; NothingFound])
        | found =>
            let songs := seq (length (store st)) (length found) in
            let st :=
              mkState (rooms st) (user_room_map st)
                      (<[user_key user_id group_id := songs]>
                         (search_results st))
                      (store st ++ found) (url_requests st) in
            (st, [Searching keyword; SearchResults songs])
        end
    end.

Definition select_song (st : State) (e : Event) : State * list Reply :=
  let group_id := group_of e in
  let user_id := get_sender_id e in
  let user_name := name_of e in
  match _get_user_room st user_id group_id with
  | None => (st, [NotInRoom])
  | Some room =>
      let search_key := user_key user_id group_id in
      match search_results st !! search_key with
      | None => (st, [NoPendingSearch])
      | Some songs =>
          match parse_index (message_str e) with
          | None => (st, [BadNumber "/选歌 1"])
          | Some index =>
              if ((index <? 0) || (Z.of_nat (length songs) <=? index))%Z
              then (st, [IndexOutOfRange])
              else
                match songs !! Z.to_nat index with
                | None => (st, [IndexOutOfRange])
                | Some song =>
                    let st := fst (fetch_url st song) in
                    let room := Room.add_song room song in
                    let st := put_room st group_id room in
                    let st :=
                      with_search_results st
                        (delete search_key (search_results st)) in
                    (st, [SongAdded user_name song
                            (length (playlist room))])
                end
          end
      end
  end.

Definition show_playlist (st : State) (e : Event) : State * list Reply :=
  match _get_user_room st (get_sender_id e) (group_of e) with
  | None => (st, [NotInRoom])
  | Some room => (st, [PlaylistView (playlist room) (current_index room)])
  end.

Definition play (st : State) (e : Event) : State * list Reply :=
  let group_id := group_of e in
  match _get_user_room st (get_sender_id e) group_id with
  | None => (st, [NotInRoom])
  | Some room =>
      match playlist room with
      | [] => (st, [PlaylistEmptyAddFirst])
      | _ :: _ =>
          if is_playing room then (st, [AlreadyPlaying])
          else
            let room := with_is_playing room true in
            let room :=
              if (current_index room <? 0)%Z
              then with_current_index room 0 else room in
            let st := put_room st group_id room in
            match Room.get_current_song room with
            | Some song =>
                let '(st, link) := ensure_url st song in
                (st, [NowPlaying song link])
            | None => (st, [NoCurrentSong])
            end
      end
  end.

Definition pause (st : State) (e : Event) : State * list Reply :=
  let group_id := group_of e in
  match _get_user_room st (get_sender_id e) group_id with
  | None => (st, [NotInRoom])
  | Some room =>
      if negb (is_playing room) then (st, [NothingPlaying])
      else (put_room st group_id (with_is_playing room false), [Paused])
  end.

Definition next_song (st : State) (e : Event) (draw : nat)
  : State * list Reply :=
  let group_id := group_of e in
  match _get_user_room st (get_sender_id e) group_id with
  | None => (st, [NotInRoom])
  | Some room =>
      match playlist room with
      | [] => (st, [PlaylistEmpty])
      | _ :: _ =>
          let '(room, song) := Room.next_song room draw in
          let st := put_room st group_id room in
          match song with
          | Some song =>
              let '(st, link) := ensure_url st song in
              (st, [NextIs song link])
          | None => (st, [])
          end
      end
  end.

Definition prev_song (st : State) (e : Event) : State * list Reply :=
  let group_id := group_of e in
  match _get_user_room st (get_sender_id e) group_id with
  | None => (st, [NotInRoom])
  | Some room =>
      match playlist room with
      | [] => (st, [PlaylistEmpty])
      | _ :: _ =>
          let '(room, song) := Room.prev_song room in
          let st := put_room st group_id room in
          match song with
          | Some song =>
              let '(st, link) := ensure_url st song in
              (st, [PrevIs song link])
          | None => (st, [])
          end
      end
  end.

Definition skip_to (st : State) (e : Event) : State * list Reply :=
  let group_id := group_of e in
  match _get_user_room st (get_sender_id e) group_id with
  | None => (st, [NotInRoom])
  | Some room =>
      match parse_index (message_str e) with
      | None => (st, [BadNumber "/切歌 3"])
      | Some index =>
          if ((index <? 0) || (plen room <=? index))%Z
          then (st, [IndexOutOfRange])
          else
            let room := with_current_index room index in
            let st := put_room st group_id room in
            match Room.get_current_song room with
            | Some song =>
                let '(st, link) := ensure_url st song in
                (st, [SkippedTo index song link])
            | None => (st, [])
            end
      end
  end.

Definition remove_song (st : State) (e : Event) : State * list Reply :=
  let group_id := group_of e in
  match _get_user_room st (get_sender_id e) group_id with
  | None => (st, [NotInRoom])
  | Some room =>
      match parse_index (message_str e) with
      | None => (st, [BadNumber "/移除 2"])
      | Some index =>
          let '(room, song) := Room.remove_song room index in
          match song with
          | Some song =>
              let room :=
                if (plen room <=? current_index room)%Z
                then with_current_index room (Z.max 0 (plen room - 1))
                else room in
              (put_room st group_id room, [Removed song])
          | None => (st, [IndexOutOfRange])
          end
      end
  end.

Definition clear_playlist (st : State) (e : Event) : State * list Reply :=
  let group_id := group_of e in
  let user_id := get_sender_id e in
  match _get_user_room st user_id group_id with
  | None => (st, [NotInRoom])
  | Some room =>
      if negb (String.eqb user_id (owner_id room))
      then (st, [OnlyOwnerClears])
      else
        let room := with_playlist room [] in
        let room := with_current_index room (-1) in
        let room := with_is_playing room false in
        (put_room st group_id room, [Cleared])
  end.

Definition set_play_mode (st : State) (e : Event) : State * list Reply :=
  let group_id := group_of e in
  match _get_user_room st (get_sender_id e) group_id with
  | None => (st, [NotInRoom])
  | Some room =>
      let mode := strip_command "播放模式" (message_str e) in
      if String.eqb mode "顺序" || String.eqb mode "sequence"
      then (put_room st group_id (with_play_mode room "sequence"),
            [ModeSequence])
      else if String.eqb mode "随机" || String.eqb mode "random"
      then (put_room st group_id (with_play_mode room "random"),
            [ModeRandom])
      else (st, [ModeQuery (play_mode room)])
  end.

Definition room_info (st : State) (e : Event) : State * list Reply :=
  match _get_user_room st (get_sender_id e) (group_of e) with
  | None => (st, [NoRoom])
  | Some room => (st, [RoomInfoView room])
  end.

Definition help_cmd (st : State) (e : Event) : State * list Reply :=
  (st, [HelpText]).

(** The framework's dispatch of one inbound command to its handler. *)
Definition handle (st : State) (ce : Command * Event)
  : State * list Reply :=
  let e := snd ce in
  match fst ce with
  | CreateRoom now => create_room st e now
  | JoinRoom => join_room st e
  | LeaveRoom => leave_room st e
  | CloseRoom => close_room st e
  | SearchSong qq netease => search_song st e qq netease
  | SelectSong => select_song st e
  | ShowPlaylist => show_playlist st e
  | Play => play st e
  | Pause => pause st e
  | NextSong draw => next_song st e draw
  | PrevSong => prev_song st e
  | SkipTo => skip_to st e
  | RemoveSong => remove_song st e
  | ClearPlaylist => clear_playlist st e
  | SetPlayMode => set_play_mode st e
  | RoomInfo => room_info st e
  | HelpCmd => help_cmd st e
  end.

(** The plugin state after a sequence of commands, handled in order. *)
Definition run (st : State) (cmds : list (Command * Event)) : State :=
  foldl (fun st ce => fst (handle st ce)) st cmds.

End Handlers.
End Plugin.


(** ** Specification vocabulary *)

(** The cursor invariant as the data model words it: [-1], or an index of
    the playlist. *)
Definition cursor_valid (r : MusicRoom) : Prop :=
  current_index r = (-1)%Z ∨ (0 ≤ current_index r < plen r)%Z.

(** What the handlers maintain: as above, or the cursor rests at [0] over a
    playlist that a removal has emptied. *)
Definition cursor_settled (r : MusicRoom) : Prop :=
  cursor_valid r ∨ (current_index r = 0%Z ∧ playlist r = []).

(** A room that is playing has had its cursor initialised. *)
Definition playing_has_cursor (r : MusicRoom) : Prop :=
  is_playing r = true → (0 ≤ current_index r)%Z.

(** The cursor adjustment the removal handler makes after a [pop]. *)
Definition clamped (r : MusicRoom) : MusicRoom :=
  if (plen r <=? current_index r)%Z
  then with_current_index r (Z.max 0 (plen r - 1))
  else r.

(** The flag and cursor update of the play handler. *)
Definition started (r : MusicRoom) : MusicRoom :=
  let r := with_is_playing r true in
  if (current_index r <? 0)%Z then with_current_index r 0 else r.

(** The room state machine: every way a handler changes a room that stays
    open. *)
Inductive room_step (r : MusicRoom) : MusicRoom → Prop :=
  | step_add_song song :
      room_step r (Room.add_song r song)
  | step_remove_song index r1 song :
      Room.remove_song r index = (r1, Some song) →
      room_step r (clamped r1)
  | step_next_song draw :
      playlist r ≠ [] → room_step r (fst (Room.next_song r draw))
  | step_prev_song :
      playlist r ≠ [] → room_step r (fst (Room.prev_song r))
  | step_skip_to index :
      (0 ≤ index < plen r)%Z → room_step r (with_current_index r index)
  | step_clear :
      room_step r
        (with_is_playing (with_current_index (with_playlist r []) (-1)) false)
  | step_play :
      playlist r ≠ [] → is_playing r = false → room_step r (started r)
  | step_pause :
      is_playing r = true → room_step r (with_is_playing r false)
  | step_members m :
      room_step r (with_members r m)
  | step_mode m :
      room_step r (with_play_mode r m).

(** A room as [create_room] builds it and files it under [key]. *)
Definition fresh_room (key : string) (r : MusicRoom) : Prop :=
  key = Plugin._get_group_key (group_id r) ∧
  playlist r = [] ∧ current_index r = (-1)%Z ∧ is_playing r = false.

(** How the room found under [key] after a command relates to the state
    before it: untouched, one step of the room machine on, or new. *)
Definition moved (st : State) (key : string) (r' : MusicRoom) : Prop :=
  rooms st !! key = Some r' ∨
  (∃ r, rooms st !! key = Some r ∧ room_step r r') ∨
  (rooms st !! key = None ∧ fresh_room key r').

(** [n] calls of [MusicRoom.next_song], one per draw. *)
Definition advance (r : MusicRoom) (draws : list nat) : MusicRoom :=
  foldl (fun r draw => fst (Room.next_song r draw)) r draws.

(** The playback and navigation commands. *)
Definition navigates (c : Command) : bool :=
  match c with
  | Play | NextSong _ | PrevSong | SkipTo => true
  | _ => false
  end.

(** The song and link a navigation reply shows. *)
Definition shown (out : list Reply) : option (loc * string) :=
  match out with
  | [NowPlaying song link] | [NextIs song link] | [PrevIs song link]
  | [SkippedTo _ song link] => Some (song, link)
  | _ => None
  end.

(** *** A concrete session, for the examples

    Both providers are down (every resolution falls back to the song's web
    page), the command word is taken to be stripped already, and numbers
    are read as CPython 3.11 reads them. *)
Definition offline : nat → string → option string := fun _ _ => None.
Definition as_is : string → string → string := fun _ message => message.

Definition says (user message : string) : Event :=
  mkEvent "g1" user user message.

Definition track (id : string) : Track := mkTrack id id "artist" "album" 200 "".

Definition library : string → Number := Py.read_number unicode_14 4300.

Definition session (cmds : list (Command * Event)) : State :=
  Plugin.run offline offline as_is library init cmds.

(** The room of the examples, with the given playlist, cursor and flag. *)
Definition room_with (songs : list loc) (cursor : Z) (playing : bool)
  : MusicRoom :=
  mkRoom "room_g1" "owner" "owner" "g1" songs cursor [("owner", "owner")]
         playing 0 "sequence".

(** Two songs, the first one current, played in order. *)
Definition two_tracks : MusicRoom := room_with [0; 1]%nat 0 true.

(** A room is opened, its owner searches, ... *)
Definition opened : list (Command * Event) :=
  [ (CreateRoom 0, says "owner" "创建房间") ].

Definition searched : list (Command * Event) :=
  opened ++
  [ (SearchSong [track "m1"; track "m2"; track "m3"] [],
     says "owner" "点歌 sunrise") ].

(** ... selects the first hit, starts playback, and removes the song. *)
Definition one_song : list (Command * Event) :=
  searched ++ [ (SelectSong, says "owner" "选歌 1") ].

Definition playing_one : list (Command * Event) :=
  one_song ++ [ (Play, says "owner" "播放") ].

Definition emptied : list (Command * Event) :=
  playing_one ++ [ (RemoveSong, says "owner" "移除 1") ].

(** Two more searches and selections give a playlist of three songs, with
    the cursor then moved to the last or to the middle one. *)
Definition three_songs : list (Command * Event) :=
  one_song ++
  [ (SearchSong [track "m4"; track "m5"] [], says "owner" "点歌 noon");
    (SelectSong, says "owner" "选歌 2");
    (SearchSong [] [track "n6"], says "owner" "点歌 dusk");
    (SelectSong, says "owner" "选歌 1") ].

Definition at_last : list (Command * Event) :=
  three_songs ++ [ (SkipTo, says "owner" "切歌 3") ].

Definition at_middle : list (Command * Event) :=
  three_songs ++ [ (SkipTo, says "owner" "切歌 2") ].


(** *** Vocabulary of the further laws *)

(** The keys a handler computes from an event. *)
Abbreviation room_key e := (Plugin._get_group_key (Plugin.group_of e)).
Abbreviation caller_key e :=
  (Plugin.user_key (get_sender_id e) (Plugin.group_of e)).

(** The commands whose handlers read the sender only to find the room. *)
Definition open_to_all (c : Command) : bool :=
  match c with
  | ShowPlaylist | Play | Pause | NextSong _ | PrevSong | SkipTo
  | RemoveSong | SetPlayMode | RoomInfo | HelpCmd => true
  | _ => false
  end.

(** [d.keys()] *)
Definition keys (d : pydict) : list string := fst <$> d.

(** What a handler may do to the owner, the members and the mode of a room
    that stays open. *)
Inductive upkeep (r : MusicRoom) : MusicRoom → Prop :=
  | upkeep_same r' :
      owner_id r' = owner_id r → members r' = members r →
      play_mode r' = play_mode r → upkeep r r'
  | upkeep_join user_id user_name :
      upkeep r (Room.add_member r user_id user_name)
  | upkeep_leave user_id :
      user_id ≠ owner_id r → upkeep r (Room.remove_member r user_id).1
  | upkeep_mode mode :
      mode = "sequence" ∨ mode = "random" →
      upkeep r (with_play_mode r mode).

(** The owner, members and mode of a room as [create_room] builds it. *)
Definition founded (r : MusicRoom) : Prop :=
  members r = [(owner_id r, owner_name r)] ∧ play_mode r = "sequence".

(** The room invariant on owner, members and mode. *)
Definition well_kept (r : MusicRoom) : Prop :=
  dict_mem (owner_id r) (members r) = true ∧
  NoDup (keys (members r)) ∧
  (play_mode r = "sequence" ∨ play_mode r = "random").

(** The reverse index after [close_room]'s loop over the members. *)
Definition evict (group_id : string) (d : pydict) (m : gmap string string)
  : gmap string string :=
  foldl (fun m member => delete (Plugin.user_key (fst member) group_id) m)
        m d.

(** [str(n)], and [f"{n}"], for a Python [int]: its decimal numeral. *)
Definition str (n : Z) : string := pretty n.

(** The text opens with a decimal digit. *)
Definition digit_first (scripts : list Z) (s : string) : bool :=
  match Py.code_points s with
  | c :: _ => bool_decide (is_Some (Py.decimal scripts c))
  | [] => false
  end.

(** What stands printed is read back with these: the value of an ASCII
    digit, and of the ASCII numeral a string opens with. *)
Definition digit_value (c : ascii) : option Z :=
  let n := Z.of_nat (nat_of_ascii c) in
  if ((48 <=? n) && (n <=? 57))%Z then Some (n - 48)%Z else None.

Fixpoint numeral_value (s : string) (acc : Z) : Z :=
  match s with
  | EmptyString => acc
  | String c s' =>
      match digit_value c with
      | Some d => numeral_value s' (10 * acc + d)%Z
      | None => acc
      end
  end.

(** Every song of a pending search result is an object without a link. *)
Definition pending_unresolved (st : State) : Prop :=
  ∀ key songs l, search_results st !! key = Some songs → l ∈ songs →
                 ∃ s, store st !! l = Some s ∧ url s = "".

(** No song is in the pending results of two callers. *)
Definition pending_apart (st : State) : Prop :=
  ∀ key1 key2 songs1 songs2 l,
    search_results st !! key1 = Some songs1 →
    search_results st !! key2 = Some songs2 →
    l ∈ songs1 → l ∈ songs2 → key1 = key2.

(** Every song of a playlist is an object with a link. *)
Definition playlists_resolved (st : State) : Prop :=
  ∀ k r l, rooms st !! k = Some r → l ∈ playlist r →
           ∃ s, store st !! l = Some s ∧ url s ≠ "".

(** The three together. *)
Definition sound (st : State) : Prop :=
  pending_unresolved st ∧ pending_apart st ∧ playlists_resolved st.

(** The rooms of [st'] hold no song that the same room of [st] does not. *)
Definition no_new_songs (st st' : State) : Prop :=
  ∀ k r' l, rooms st' !! k = Some r' → l ∈ playlist r' →
            ∃ r, rooms st !! k = Some r ∧ l ∈ playlist r.

(** [f"{n:02d}"]: the numeral, zero-padded on the left to two characters. *)
Definition two_digits (n : Z) : string :=
  if (String.length (str n) <? 2)%nat then "0" +:+ str n else str n.

(** [ListenTogetherPlugin._format_duration]; [//] and [%] round towards
    minus infinity, as [Z.div] and [Z.modulo] do for a positive divisor. *)
Definition _format_duration (seconds : Z) : string :=
  let minutes := (seconds / 60)%Z in
  let secs := (seconds mod 60)%Z in
  str minutes +:+ ":" +:+ two_digits secs.

(** A number of 4301 digits, one more than CPython 3.11 reads. *)
Definition overlong : string :=
  string_of_list_ascii (replicate 4301 "1"%char).

(** A guest joins the room that is playing its one song. *)
Definition with_guest : list (Command * Event) :=
  playing_one ++ [ (JoinRoom, says "guest" "加入房间") ].

(** Someone in another group. *)
Definition elsewhere (user message : string) : Event :=
  mkEvent "g2" user user message.


(** ** The room machine keeps its invariants *)

Lemma randint_range a b draw : (a ≤ b)%Z → (a ≤ Room.randint a b draw ≤ b)%Z.
Proof.
  intros Hab. unfold Room.randint.
  pose proof (Z.mod_pos_bound (Z.of_nat draw) (b - a + 1)). lia.
Qed.

Lemma plen_nonempty r : playlist r ≠ [] → (0 < plen r)%Z.
Proof. unfold plen. destruct (playlist r); [done|]. cbn. lia. Qed.

Lemma next_song_cursor r draw :
  playlist r ≠ [] →
  current_index (Room.next_song r draw).1 =
    if String.eqb (play_mode r) "random"
    then Room.randint 0 (plen r - 1) draw
    else ((current_index r + 1) mod plen r)%Z.
Proof.
  intros Hp. unfold Room.next_song.
  destruct (playlist r) eqn:E; [done|]. cbn.
  by destruct (String.eqb _ _).
Qed.

Lemma next_song_frame r draw :
  playlist (Room.next_song r draw).1 = playlist r ∧
  is_playing (Room.next_song r draw).1 = is_playing r ∧
  play_mode (Room.next_song r draw).1 = play_mode r.
Proof.
  unfold Room.next_song. destruct (playlist r) eqn:E; cbn; [by rewrite E|].
  by destruct (String.eqb _ _).
Qed.

Lemma prev_song_cursor r :
  playlist r ≠ [] →
  current_index (Room.prev_song r).1 = ((current_index r - 1) mod plen r)%Z.
Proof.
  intros Hp. unfold Room.prev_song. by destruct (playlist r) eqn:E.
Qed.

Lemma prev_song_frame r :
  playlist (Room.prev_song r).1 = playlist r ∧
  is_playing (Room.prev_song r).1 = is_playing r ∧
  play_mode (Room.prev_song r).1 = play_mode r.
Proof.
  unfold Room.prev_song. destruct (playlist r) eqn:E; cbn; [by rewrite E|done].
Qed.

Lemma remove_song_some r index r1 song :
  Room.remove_song r index = (r1, Some song) →
  (0 ≤ index < plen r)%Z ∧
  playlist r !! Z.to_nat index = Some song ∧
  r1 = with_playlist r (delete (Z.to_nat index) (playlist r)) ∧
  plen r1 = (plen r - 1)%Z.
Proof.
  unfold Room.remove_song.
  destruct (_ && _) eqn:Hi; [|done]. intros [= <- Hs].
  split; [lia|]. split; [done|]. split; [done|].
  unfold plen. cbn. rewrite length_delete; [|by eexists].
  apply lookup_lt_Some in Hs. lia.
Qed.

Lemma room_step_cursor_settled r r' :
  room_step r r' → cursor_settled r → cursor_settled r'.
Proof.
  intros Hs Hc. destruct Hs as [song|index r1 song Hrm|draw Hp|Hp|index Hi| |Hp Hpl|Hpl|m|m].
  - unfold cursor_settled, cursor_valid, plen in *. cbn.
    rewrite length_app. cbn.
    destruct Hc as [[Hc|Hc]|[Hc Hl]]; [by left; left|left; right; lia|].
    left; right. rewrite Hl. cbn. lia.
  - apply remove_song_some in Hrm as (Hi & _ & -> & Hlen).
    unfold clamped. destruct (_ <=? _)%Z eqn:Hle.
    + unfold cursor_settled, cursor_valid.
      change (current_index (with_current_index ?x ?c)) with c.
      change (plen (with_current_index ?x ?c)) with (plen x).
      change (playlist (with_current_index ?x ?c)) with (playlist x).
      destruct (decide (plen (with_playlist r (delete (Z.to_nat index) (playlist r))) = 0%Z)) as [Hz|Hz].
      * right. split; [lia|]. unfold plen in Hz.
        by destruct (playlist (with_playlist r _)).
      * left; right. lia.
    + unfold cursor_settled, cursor_valid in *.
      change (current_index (with_playlist ?x ?c)) with (current_index x) in *.
      destruct Hc as [[Hc|Hc]|[Hc Hl]]; [by left; left|left; right; lia|].
      unfold plen in Hi. rewrite Hl in Hi. cbn in Hi. lia.
  - destruct (next_song_frame r draw) as (Hpl & _).
    pose proof (plen_nonempty r Hp) as Hn.
    left; right. unfold plen at 1. rewrite Hpl, next_song_cursor by done.
    fold (plen r). destruct (String.eqb _ _).
    + pose proof (randint_range 0 (plen r - 1) draw). lia.
    + pose proof (Z.mod_pos_bound (current_index r + 1) (plen r)). lia.
  - destruct (prev_song_frame r) as (Hpl & _).
    pose proof (plen_nonempty r Hp) as Hn.
    left; right. unfold plen at 1. rewrite Hpl, prev_song_cursor by done.
    fold (plen r).
    pose proof (Z.mod_pos_bound (current_index r - 1) (plen r)). lia.
  - left; right. done.
  - left; left. done.
  - unfold started. cbn. pose proof (plen_nonempty r Hp).
    destruct (_ <? _)%Z eqn:Hlt.
    + left; right. cbn. change (plen _) with (plen r). lia.
    + destruct Hc as [[Hc|Hc]|[Hc Hl]]; [lia|by left; right|done].
  - done.
  - done.
  - done.
Qed.

Lemma room_step_playing_has_cursor r r' :
  room_step r r' → playing_has_cursor r → playing_has_cursor r'.
Proof.
  intros Hs Hc. destruct Hs as [song|index r1 song Hrm|draw Hp|Hp|index Hi| |Hp Hpl|Hpl|m|m];
    unfold playing_has_cursor in *.
  - done.
  - apply remove_song_some in Hrm as (Hi & _ & -> & Hlen).
    unfold clamped. destruct (_ <=? _)%Z eqn:Hle; cbn; [lia|done].
  - rewrite next_song_cursor by done. pose proof (plen_nonempty r Hp).
    intros _. destruct (String.eqb _ _).
    + pose proof (randint_range 0 (plen r - 1) draw). lia.
    + pose proof (Z.mod_pos_bound (current_index r + 1) (plen r)). lia.
  - rewrite prev_song_cursor by done. pose proof (plen_nonempty r Hp).
    pose proof (Z.mod_pos_bound (current_index r - 1) (plen r)). lia.
  - cbn. lia.
  - done.
  - unfold started. cbn. destruct (_ <? _)%Z eqn:Hlt; cbn; lia.
  - done.
  - done.
  - done.
Qed.

Lemma room_step_group_id r r' : room_step r r' → group_id r' = group_id r.
Proof.
  intros [song|index r1 song Hrm|draw Hp|Hp|index Hi| |Hp Hpl|Hpl|m|m];
    try done.
  - apply remove_song_some in Hrm as (_ & _ & -> & _).
    unfold clamped. by destruct (_ <=? _)%Z.
  - unfold Room.next_song. destruct (playlist r); [done|]. cbn.
    by destruct (String.eqb _ _).
  - unfold Room.prev_song. by destruct (playlist r).
  - unfold started. cbn. by destruct (_ <? _)%Z.
Qed.

(** ** Handlers move rooms by steps of the room machine *)

Section Proofs.
Variable qq_stream netease_stream : nat → string → option string.
Variable strip_command : string → string → string.
Variable read_number : string → Number.

Abbreviation parse_index := (Plugin.parse_index read_number).

Abbreviation handle :=
  (Plugin.handle qq_stream netease_stream strip_command read_number).
Abbreviation run :=
  (Plugin.run qq_stream netease_stream strip_command read_number).
Abbreviation ensure_url := (Plugin.ensure_url qq_stream netease_stream).
Abbreviation fetch_url := (Plugin.fetch_url qq_stream netease_stream).

Lemma fetch_url_rooms st l : rooms (fetch_url st l).1 = rooms st.
Proof. unfold Plugin.fetch_url. by destruct (store st !! l). Qed.

Lemma ensure_url_rooms st l : rooms (ensure_url st l).1 = rooms st.
Proof.
  unfold Plugin.ensure_url. destruct (store st !! l); [|done].
  destruct (String.eqb _ _); [apply fetch_url_rooms|done].
Qed.

Lemma moved_put st g r r2 k r' :
  rooms st !! Plugin._get_group_key g = Some r →
  room_step r r2 →
  <[Plugin._get_group_key g := r2]> (rooms st) !! k = Some r' →
  moved st k r'.
Proof.
  intros Hr Hs. rewrite lookup_insert. case_decide as Hk.
  - intros [= <-]. subst k. right; left. eauto.
  - intros H. by left.
Qed.

Lemma handle_rooms st ce k r' :
  rooms (handle st ce).1 !! k = Some r' → moved st k r'.
Proof.
  destruct ce as [c e]. unfold Plugin.handle. cbn [fst snd].
  destruct c.
  - unfold Plugin.create_room.
    destruct (rooms st !! _) eqn:Hr; cbn; [by left|].
    rewrite lookup_insert. case_decide as Hk.
    + intros [= <-]. subst k. right; right. done.
    + by left.
  - unfold Plugin.join_room, Plugin._get_user_room, Plugin.put_room.
    destruct (rooms st !! _) eqn:Hr; cbn; [|by left].
    destruct (dict_mem _ _); cbn; [by left|].
    apply moved_put with (r := m); [done|]. apply step_members.
  - unfold Plugin.leave_room, Plugin._get_user_room, Plugin.put_room.
    destruct (rooms st !! _) eqn:Hr; cbn; [|by left].
    destruct (String.eqb _ _); cbn; [by left|].
    apply moved_put with (r := m); [done|].
    unfold Room.remove_member. destruct (dict_mem _ _); cbn.
    + apply step_members.
    + replace m with (with_members m (members m)) at 2 by (by destruct m).
      apply step_members.
  - unfold Plugin.close_room, Plugin._get_user_room.
    destruct (rooms st !! _) eqn:Hr; cbn; [|by left].
    destruct (negb _); cbn; [by left|].
    rewrite lookup_delete. case_decide; [done|]. by left.
  - unfold Plugin.search_song, Plugin._get_user_room.
    destruct (String.eqb _ _); cbn; [by left|].
    destruct (rooms st !! _) eqn:Hr; cbn; [|by left].
    destruct (search _ _); cbn; by left.
  - unfold Plugin.select_song, Plugin._get_user_room, Plugin.put_room.
    destruct (rooms st !! _) eqn:Hr; cbn; [|by left].
    destruct (search_results st !! _); cbn; [|by left].
    destruct (parse_index _); cbn; [|by left].
    destruct (_ || _); cbn; [by left|].
    destruct (l !! _); cbn; [|by left].
    rewrite fetch_url_rooms.
    apply moved_put with (r := m); [done|]. apply step_add_song.
  - unfold Plugin.show_playlist. destruct (Plugin._get_user_room _ _ _); by left.
  - unfold Plugin.play, Plugin._get_user_room, Plugin.put_room.
    destruct (rooms st !! _) eqn:Hr; cbn; [|by left].
    destruct (playlist m) eqn:Hp; cbn; [by left|].
    destruct (is_playing m) eqn:Hpl; cbn; [by left|].
    fold (started m).
    assert (Hs : room_step m (started m)).
    { apply step_play; [by rewrite Hp|done]. }
    destruct (Room.get_current_song _) as [song|];
      [destruct (ensure_url _ _) as [st2 u] eqn:He|]; cbn.
    + apply (f_equal fst) in He. cbn [fst] in He. subst st2.
      rewrite ensure_url_rooms. by apply moved_put with (r := m).
    + by apply moved_put with (r := m).
  - unfold Plugin.pause, Plugin._get_user_room, Plugin.put_room.
    destruct (rooms st !! _) eqn:Hr; cbn; [|by left].
    destruct (is_playing m) eqn:Hpl; cbn; [|by left].
    apply moved_put with (r := m); [done|]. by apply step_pause.
  - unfold Plugin.next_song, Plugin._get_user_room.
    destruct (rooms st !! _) eqn:Hr; cbn; [|by left].
    destruct (playlist m) eqn:Hp; cbn; [by left|].
    assert (Hs : room_step m (Room.next_song m draw).1).
    { apply step_next_song. by rewrite Hp. }
    destruct (Room.next_song m draw) as [r2 [song|]]; cbn in *;
      [destruct (ensure_url _ _) as [st2 u] eqn:He|]; cbn.
    + apply (f_equal fst) in He. cbn [fst] in He. subst st2.
      rewrite ensure_url_rooms. by apply moved_put with (r := m).
    + by apply moved_put with (r := m).
  - unfold Plugin.prev_song, Plugin._get_user_room.
    destruct (rooms st !! _) eqn:Hr; cbn; [|by left].
    destruct (playlist m) eqn:Hp; cbn; [by left|].
    assert (Hs : room_step m (Room.prev_song m).1).
    { apply step_prev_song. by rewrite Hp. }
    destruct (Room.prev_song m) as [r2 [song|]]; cbn in *;
      [destruct (ensure_url _ _) as [st2 u] eqn:He|]; cbn.
    + apply (f_equal fst) in He. cbn [fst] in He. subst st2.
      rewrite ensure_url_rooms. by apply moved_put with (r := m).
    + by apply moved_put with (r := m).
  - unfold Plugin.skip_to, Plugin._get_user_room.
    destruct (rooms st !! _) eqn:Hr; cbn; [|by left].
    destruct (parse_index _) as [index|]; cbn; [|by left].
    destruct (_ || _) eqn:Hi; cbn; [by left|].
    assert (Hs : room_step m (with_current_index m index)).
    { apply step_skip_to. lia. }
    destruct (Room.get_current_song _) as [song|];
      [destruct (ensure_url _ _) as [st2 u] eqn:He|]; cbn.
    + apply (f_equal fst) in He. cbn [fst] in He. subst st2.
      rewrite ensure_url_rooms. by apply moved_put with (r := m).
    + by apply moved_put with (r := m).
  - unfold Plugin.remove_song, Plugin._get_user_room.
    destruct (rooms st !! _) eqn:Hr; cbn; [|by left].
    destruct (parse_index _) as [index|]; cbn; [|by left].
    destruct (Room.remove_song m index) as [r1 [song|]] eqn:Hrm; cbn; [|by left].
    fold (clamped r1). apply moved_put with (r := m); [done|].
    by eapply step_remove_song.
  - unfold Plugin.clear_playlist, Plugin._get_user_room.
    destruct (rooms st !! _) eqn:Hr; cbn; [|by left].
    destruct (negb _); cbn; [by left|].
    apply moved_put with (r := m); [done|]. apply step_clear.
  - unfold Plugin.set_play_mode, Plugin._get_user_room.
    destruct (rooms st !! _) eqn:Hr; cbn; [|by left].
    destruct (_ || _); cbn; [|destruct (_ || _); cbn; [|by left]];
      (apply moved_put with (r := m); [done|]; apply step_mode).
  - unfold Plugin.room_info. destruct (Plugin._get_user_room _ _ _); by left.
  - by left.
Qed.

Lemma run_snoc st cmds ce :
  run st (cmds ++ [ce]) = (handle (run st cmds) ce).1.
Proof. unfold Plugin.run. by rewrite foldl_app. Qed.

(** Every room of a reachable state satisfies a property that fresh rooms
    have and room steps keep. *)
Lemma run_rooms_invariant (P : string → MusicRoom → Prop) :
  (∀ k r, fresh_room k r → P k r) →
  (∀ k r r', room_step r r' → P k r → P k r') →
  ∀ cmds k r, rooms (run init cmds) !! k = Some r → P k r.
Proof.
  intros Hfresh Hstep cmds.
  induction cmds as [|ce cmds IH] using rev_ind; intros k r.
  - cbn. by rewrite lookup_empty.
  - rewrite run_snoc. intros H. apply handle_rooms in H.
    destruct H as [H|[(r0 & H & Hs)|[_ H]]]; eauto.
Qed.

Lemma run_playing_has_cursor cmds k r :
  rooms (run init cmds) !! k = Some r → playing_has_cursor r.
Proof.
  apply (run_rooms_invariant (fun _ r => playing_has_cursor r)).
  - intros _ r0 (_ & _ & _ & Hp) Hq. by rewrite Hp in Hq.
  - intros _ r0 r1. apply room_step_playing_has_cursor.
Qed.

Lemma run_room_key cmds k r :
  rooms (run init cmds) !! k = Some r → k = Plugin._get_group_key (group_id r).
Proof.
  apply (run_rooms_invariant (fun k r => k = Plugin._get_group_key (group_id r))).
  - by intros k0 r0 (Hk & _).
  - intros k0 r0 r1 Hs ->. by rewrite (room_step_group_id _ _ Hs).
Qed.

(** C1 (as amended).  After any sequence of commands, every open room has
    its cursor at [-1], at an index of its playlist, or at [0] over an empty
    playlist (what the removal handler's [max(0, len - 1)] leaves when the
    only song goes while it is current). *)
Theorem cursor_settled_after_every_command cmds k r :
  rooms (run init cmds) !! k = Some r → cursor_settled r.
Proof.
  apply (run_rooms_invariant (fun _ r => cursor_settled r)).
  - intros _ r0 (_ & _ & Hc & _). by left; left.
  - intros _ r0 r1. apply room_step_cursor_settled.
Qed.

Lemma ensure_url_cached st l s :
  store st !! l = Some s → url s ≠ "" → ensure_url st l = (st, url s).
Proof.
  intros Hs Hu. unfold Plugin.ensure_url. rewrite Hs.
  apply String.eqb_neq in Hu. by rewrite Hu.
Qed.

Lemma ensure_url_store st l l' s' :
  store st !! l' = Some s' → url s' ≠ "" →
  store (ensure_url st l).1 !! l' = Some s'.
Proof.
  intros Hs' Hu. unfold Plugin.ensure_url.
  destruct (store st !! l) as [s|] eqn:Hs; [|done].
  destruct (String.eqb (url s) "") eqn:Hes; [|done].
  unfold Plugin.fetch_url. rewrite Hs. cbn.
  rewrite list_lookup_insert_ne; [done|].
  intros ->. apply String.eqb_eq in Hes. congruence.
Qed.

Lemma ensure_url_requests st l :
  url_requests (ensure_url st l).1 = url_requests st ∨
  ∃ s, url_requests (ensure_url st l).1 = url_requests st ++ [l] ∧
       store st !! l = Some s ∧ url s = "".
Proof.
  unfold Plugin.ensure_url.
  destruct (store st !! l) as [s|] eqn:Hs; [|by left].
  destruct (String.eqb (url s) "") eqn:Hes; [|by left].
  right. exists s. unfold Plugin.fetch_url. rewrite Hs. cbn.
  apply String.eqb_eq in Hes. done.
Qed.

(** The three shapes a navigation handler's result takes. *)
Lemma navigation_shape st c e :
  navigates c = true →
  (∃ out, handle st (c, e) = (st, out) ∧ shown out = None) ∨
  (∃ r2, handle st (c, e) = (Plugin.put_room st (Plugin.group_of e) r2, [])
         ∨ handle st (c, e) =
             (Plugin.put_room st (Plugin.group_of e) r2, [NoCurrentSong])) ∨
  (∃ r2 song,
     (handle st (c, e)).1 =
       (ensure_url (Plugin.put_room st (Plugin.group_of e) r2) song).1 ∧
     shown (handle st (c, e)).2 =
       Some (song,
             (ensure_url (Plugin.put_room st (Plugin.group_of e) r2) song).2)).
Proof.
  destruct c; try done; intros _; unfold Plugin.handle; cbn [fst snd].
  - unfold Plugin.play.
    destruct (Plugin._get_user_room _ _ _) as [r|]; [|left; by eexists].
    destruct (playlist r); [left; by eexists|].
    destruct (is_playing r); [left; by eexists|].
    fold (started r).
    destruct (Room.get_current_song _) as [song|].
    + right; right. exists (started r), song.
      by destruct (ensure_url _ song).
    + right; left. eexists. by right.
  - unfold Plugin.next_song.
    destruct (Plugin._get_user_room _ _ _) as [r|]; [|left; by eexists].
    destruct (playlist r); [left; by eexists|].
    destruct (Room.next_song r draw) as [r2 [song|]].
    + right; right. eexists r2, song. by destruct (ensure_url _ song).
    + right; left. eexists. by left.
  - unfold Plugin.prev_song.
    destruct (Plugin._get_user_room _ _ _) as [r|]; [|left; by eexists].
    destruct (playlist r); [left; by eexists|].
    destruct (Room.prev_song r) as [r2 [song|]].
    + right; right. eexists r2, song. by destruct (ensure_url _ song).
    + right; left. eexists. by left.
  - unfold Plugin.skip_to.
    destruct (Plugin._get_user_room _ _ _) as [r|]; [|left; by eexists].
    destruct (parse_index _) as [index|]; [|left; by eexists].
    destruct (_ || _); [left; by eexists|].
    destruct (Room.get_current_song _) as [song|].
    + right; right. exists (with_current_index r index), song.
      by destruct (ensure_url _ song).
    + right; left. eexists. by left.
Qed.

(** C7.  The play, next, previous and skip handlers resolve a link only for
    a song whose [url] is empty: a song with a link keeps its object
    unchanged through any of them, every call they make to
    [MusicAPI.get_song_url] is for a song without one, and when the song
    they show has a link already, no call is made and the reply carries
    that same link. *)
Theorem navigation_reuses_resolved_url st c e :
  navigates c = true →
  (∀ l s, store st !! l = Some s → url s ≠ "" →
          store (handle st (c, e)).1 !! l = Some s) ∧
  (url_requests (handle st (c, e)).1 = url_requests st ∨
   ∃ l s, url_requests (handle st (c, e)).1 = url_requests st ++ [l] ∧
          store st !! l = Some s ∧ url s = "") ∧
  (∀ l link s, shown (handle st (c, e)).2 = Some (l, link) →
               store st !! l = Some s → url s ≠ "" →
               link = url s ∧
               url_requests (handle st (c, e)).1 = url_requests st ∧
               store (handle st (c, e)).1 = store st).
Proof.
  intros Hnav.
  destruct (navigation_shape st c e Hnav)
    as [(out & -> & Hout)|[(r2 & [-> | ->])|(r2 & song & H1 & H2)]]; cbn.
  - split; [done|]. split; [by left|]. intros ???. by rewrite Hout.
  - split; [done|]. split; [by left|]. done.
  - split; [done|]. split; [by left|]. done.
  - rewrite H1, H2. split; [|split].
    + intros l s Hs Hu. by apply ensure_url_store.
    + destruct (ensure_url_requests
                  (Plugin.put_room st (Plugin.group_of e) r2) song)
        as [H|(s & H & Hs & Hu)]; [by left|right; eauto].
    + intros l link s [= <- <-] Hs Hu.
      by rewrite (ensure_url_cached
                    (Plugin.put_room st (Plugin.group_of e) r2) song s Hs Hu).
Qed.

(** C5 (as amended).  [play] on an empty playlist is refused and changes
    nothing, whether or not the room is flagged as playing; on a room of a
    reachable state with songs and no current song it sets the cursor to
    [0] and the playing flag; [play] on a room with songs that is already
    playing, and [pause] on one that is not, change nothing and answer with
    a message of their own that carries no error mark. *)
Theorem play_pause_statuses :
  (∀ st e r,
     Plugin._get_user_room st (get_sender_id e) (Plugin.group_of e) = Some r →
     playlist r = [] →
     Plugin.play qq_stream netease_stream st e = (st, [PlaylistEmptyAddFirst])
     ∧ is_error PlaylistEmptyAddFirst = true) ∧
  (∀ cmds e r,
     Plugin._get_user_room (run init cmds) (get_sender_id e)
       (Plugin.group_of e) = Some r →
     playlist r ≠ [] → current_index r = (-1)%Z →
     ∃ r',
       Plugin._get_user_room
         (Plugin.play qq_stream netease_stream (run init cmds) e).1
         (get_sender_id e) (Plugin.group_of e) = Some r' ∧
       current_index r' = 0%Z ∧ is_playing r' = true ∧
       playlist r' = playlist r) ∧
  (∀ st e r,
     Plugin._get_user_room st (get_sender_id e) (Plugin.group_of e) = Some r →
     playlist r ≠ [] → is_playing r = true →
     Plugin.play qq_stream netease_stream st e = (st, [AlreadyPlaying]) ∧
     is_error AlreadyPlaying = false ∧
     ∀ song link, reply_text AlreadyPlaying ≠ reply_text (NowPlaying song link)) ∧
  (∀ st e r,
     Plugin._get_user_room st (get_sender_id e) (Plugin.group_of e) = Some r →
     is_playing r = false →
     Plugin.pause st e = (st, [NothingPlaying]) ∧
     is_error NothingPlaying = false ∧
     reply_text NothingPlaying ≠ reply_text Paused).
Proof.
  split; [|split; [|split]].
  - intros st e r Hr Hp. split; [|done].
    unfold Plugin.play. by rewrite Hr, Hp.
  - intros cmds e r Hr Hp Hc.
    pose proof (run_playing_has_cursor cmds _ r Hr) as Hpl.
    assert (is_playing r = false) as Hfalse.
    { destruct (is_playing r) eqn:Hip; [|done].
      specialize (Hpl Hip). lia. }
    exists (started r). unfold Plugin.play. rewrite Hr.
    destruct (playlist r) eqn:E; [done|]. rewrite Hfalse.
    fold (started r).
    split; [|unfold started; cbn; rewrite Hc; cbn; by rewrite E].
    unfold Plugin._get_user_room.
    destruct (Room.get_current_song _) as [song|];
      [|cbn; apply lookup_insert_eq].
    destruct (ensure_url _ song) as [st2 link] eqn:He.
    apply (f_equal fst) in He. cbn [fst] in *. subst st2.
    rewrite ensure_url_rooms. cbn. apply lookup_insert_eq.
  - intros st e r Hr Hp Hpl. split; [|done].
    unfold Plugin.play. rewrite Hr. destruct (playlist r); [done|].
    by rewrite Hpl.
  - intros st e r Hr Hpl. split; [|done].
    unfold Plugin.pause. by rewrite Hr, Hpl.
Qed.

(** C3.  For a caller in a room with pending search results: a selection
    with a number in range appends that song to the playlist and deletes the
    caller's pending results, so that whatever the same caller sends to the
    selection handler next is answered with the no-pending-search message
    and changes nothing; a selection in which no number is read (none is
    found, or [int] refuses the one found), or with a number out of range,
    leaves the whole plugin state as it was.  This holds whatever
    [re.search] and [int] make of a message. *)
Theorem select_song_consumes_pending st e r songs :
  Plugin._get_user_room st (get_sender_id e) (Plugin.group_of e) = Some r →
  search_results st !! Plugin.user_key (get_sender_id e) (Plugin.group_of e)
    = Some songs →
  (∀ index song,
     parse_index (message_str e) = Some index → (0 ≤ index)%Z →
     songs !! Z.to_nat index = Some song →
     let st' := (Plugin.select_song qq_stream netease_stream read_number st e).1 in
     (Plugin.select_song qq_stream netease_stream read_number st e).2
       = [SongAdded (Plugin.name_of e) song (S (length (playlist r)))] ∧
     search_results st'
       = delete (Plugin.user_key (get_sender_id e) (Plugin.group_of e))
                (search_results st) ∧
     Plugin._get_user_room st' (get_sender_id e) (Plugin.group_of e)
       = Some (Room.add_song r song) ∧
     ∀ e2, get_sender_id e2 = get_sender_id e →
           Plugin.group_of e2 = Plugin.group_of e →
           Plugin.select_song qq_stream netease_stream read_number st' e2
             = (st', [NoPendingSearch])) ∧
  (parse_index (message_str e) = None →
     Plugin.select_song qq_stream netease_stream read_number st e
       = (st, [BadNumber "/选歌 1"])) ∧
  (∀ index,
     parse_index (message_str e) = Some index →
     (index < 0 ∨ Z.of_nat (length songs) ≤ index)%Z →
     Plugin.select_song qq_stream netease_stream read_number st e
       = (st, [IndexOutOfRange])).
Proof.
  intros Hr Hs. split; [|split].
  - intros index song Hi H0 Hsong st'.
    assert (((index <? 0) || (Z.of_nat (length songs) <=? index))%Z = false)
      as Hrange.
    { apply lookup_lt_Some in Hsong. lia. }
    assert (Plugin.select_song qq_stream netease_stream read_number st e =
            (with_search_results
               (Plugin.put_room (fetch_url st song).1 (Plugin.group_of e)
                  (Room.add_song r song))
               (delete (Plugin.user_key (get_sender_id e) (Plugin.group_of e))
                  (search_results st)),
             [SongAdded (Plugin.name_of e) song (S (length (playlist r)))]))
      as Hsel.
    { unfold Plugin.select_song. rewrite Hr, Hs, Hi, Hrange, Hsong.
      cbn. rewrite length_app. cbn. rewrite Nat.add_1_r.
      do 3 f_equal. unfold Plugin.fetch_url.
      by destruct (store st !! song). }
    subst st'. rewrite Hsel. cbn [fst snd].
    split; [done|]. split; [done|]. split.
    { unfold Plugin._get_user_room. cbn. apply lookup_insert_eq. }
    intros e2 He2 Hg2. unfold Plugin.select_song. rewrite He2, Hg2.
    unfold Plugin._get_user_room at 1. cbn [rooms with_search_results Plugin.put_room with_rooms].
    rewrite lookup_insert_eq. cbn [search_results with_search_results].
    by rewrite lookup_delete_eq.
  - intros Hi. unfold Plugin.select_song. by rewrite Hr, Hs, Hi.
  - intros index Hi Hrange. unfold Plugin.select_song.
    rewrite Hr, Hs, Hi.
    replace ((index <? 0) || (Z.of_nat (length songs) <=? index))%Z
      with true by lia.
    done.
Qed.

End Proofs.

(** ** Navigation laws of [MusicRoom] *)

Lemma advance_cons r draw draws :
  advance r (draw :: draws) = advance (Room.next_song r draw).1 draws.
Proof. done. Qed.

(** In sequence mode, [n >= 1] calls move the cursor [n] places round the
    playlist. *)
Lemma advance_cursor draws : ∀ r,
  play_mode r ≠ "random" → playlist r ≠ [] → draws ≠ [] →
  current_index (advance r draws)
    = ((current_index r + Z.of_nat (length draws)) mod plen r)%Z.
Proof.
  induction draws as [|draw draws IH]; [done|].
  intros r Hm Hp _. rewrite advance_cons.
  pose proof (next_song_cursor r draw Hp) as Hc.
  apply String.eqb_neq in Hm. rewrite Hm in Hc.
  destruct (next_song_frame r draw) as (Hpl & _ & Hmode).
  destruct draws as [|draw' draws].
  - cbn. rewrite Hc. f_equal.
  - rewrite IH; [|rewrite Hmode; by apply String.eqb_neq|by rewrite Hpl|done].
    unfold plen at 1. rewrite Hpl, Hc. fold (plen r).
    rewrite Zplus_mod_idemp_l. f_equal. cbn [length]. lia.
Qed.

(** C2 (as amended).  In sequence mode, from a cursor that is an index of a
    playlist of length N, N calls of [next_song] bring the cursor back to
    where it started; each single call moves it to the next index modulo N,
    which after the last song is [0]. *)
Theorem advance_wraps_after_len r draws :
  play_mode r ≠ "random" →
  (0 ≤ current_index r < plen r)%Z →
  length draws = length (playlist r) →
  current_index (advance r draws) = current_index r ∧
  (∀ draw, current_index (Room.next_song r draw).1
           = ((current_index r + 1) mod plen r)%Z) ∧
  (∀ draw, current_index r = (plen r - 1)%Z →
           current_index (Room.next_song r draw).1 = 0%Z).
Proof.
  intros Hm Hc Hlen.
  assert (playlist r ≠ []) as Hp.
  { unfold plen in Hc. destruct (playlist r); [cbn in Hc; lia|done]. }
  assert (∀ draw, current_index (Room.next_song r draw).1
                  = ((current_index r + 1) mod plen r)%Z) as Hone.
  { intros draw. rewrite next_song_cursor by done.
    apply String.eqb_neq in Hm. by rewrite Hm. }
  split; [|split; [done|]].
  - rewrite advance_cursor; [|done|done|].
    + rewrite Hlen. fold (plen r).
      rewrite <- (Z.mul_1_l (plen r)) at 1.
      rewrite Z.mod_add by lia. apply Z.mod_small. lia.
    + destruct draws; [|done]. destruct (playlist r); done.
  - intros draw Hlast. rewrite Hone, Hlast.
    replace (plen r - 1 + 1)%Z with (1 * plen r)%Z by lia.
    apply Z.mod_mul. lia.
Qed.

(** C8.  On a playlist with songs, [prev_song] moves the cursor to the
    previous index modulo the length whatever the play mode, from [0] to the
    last song; and in sequence mode, from a cursor that is an index of the
    playlist, [prev_song] followed by [next_song] brings it back. *)
Theorem retreat_then_advance_returns r draw :
  playlist r ≠ [] →
  current_index (Room.prev_song r).1
    = ((current_index r - 1) mod plen r)%Z ∧
  (current_index r = 0%Z →
   current_index (Room.prev_song r).1 = (plen r - 1)%Z) ∧
  (play_mode r ≠ "random" → (0 ≤ current_index r < plen r)%Z →
   current_index (Room.next_song (Room.prev_song r).1 draw).1
     = current_index r).
Proof.
  intros Hp. pose proof (plen_nonempty r Hp) as Hn.
  pose proof (prev_song_cursor r Hp) as Hc.
  destruct (prev_song_frame r) as (Hpl & _ & Hmode).
  split; [done|]. split.
  - intros H0. rewrite Hc, H0.
    symmetry. apply (Z.mod_unique_pos _ _ (-1)); lia.
  - intros Hm Hi. rewrite next_song_cursor by (by rewrite Hpl).
    rewrite Hmode. apply String.eqb_neq in Hm. rewrite Hm.
    unfold plen at 1. rewrite Hpl, Hc. fold (plen r).
    rewrite Zplus_mod_idemp_l.
    replace (current_index r - 1 + 1)%Z with (current_index r) by lia.
    apply Z.mod_small. lia.
Qed.

(** C9.  [prev_song] on a room with no current song (cursor [-1]) raises
    nothing: over N >= 2 songs it sets the cursor to N - 2 and returns the
    second-to-last song, over a single song it sets the cursor to [0]. *)
Theorem retreat_from_unset_cursor r :
  current_index r = (-1)%Z →
  ((2 ≤ plen r)%Z →
   current_index (Room.prev_song r).1 = (plen r - 2)%Z ∧
   (Room.prev_song r).2 = playlist r !! Z.to_nat (plen r - 2) ∧
   is_Some (Room.prev_song r).2) ∧
  (plen r = 1%Z →
   current_index (Room.prev_song r).1 = 0%Z ∧
   (Room.prev_song r).2 = playlist r !! 0%nat ∧
   is_Some (Room.prev_song r).2).
Proof.
  intros Hc.
  assert (∀ n, (0 ≤ n < plen r)%Z →
               ((current_index r - 1) mod plen r = n)%Z →
               current_index (Room.prev_song r).1 = n ∧
               (Room.prev_song r).2 = playlist r !! Z.to_nat n ∧
               is_Some (Room.prev_song r).2) as Hgen.
  { intros n Hn Hmod. unfold Room.prev_song.
    destruct (playlist r) as [|song rest] eqn:E.
    { unfold plen in Hn. rewrite E in Hn. cbn in Hn. lia. }
    cbn [fst snd]. unfold Room.get_current_song.
    cbn [current_index playlist with_current_index].
    change (plen (with_current_index r _)) with (plen r).
    rewrite Hmod.
    replace ((0 <=? n) && (n <? plen r))%Z with true by lia.
    rewrite E. split; [done|]. split; [done|].
    apply lookup_lt_is_Some. rewrite <- E. unfold plen in Hn. lia. }
  split.
  - intros Hn. apply Hgen; [lia|]. rewrite Hc.
    symmetry. apply (Z.mod_unique_pos _ _ (-1)); lia.
  - intros Hn. apply (Hgen 0%Z); [lia|]. rewrite Hc, Hn.
    apply Z.mod_1_r.
Qed.

(** ** Removal *)

Section Removal.
Variable read_number : string → Number.

Abbreviation parse_index := (Plugin.parse_index read_number).

(** What the removal handler does with an index of the playlist. *)
Lemma remove_song_in_range st e r index :
  Plugin._get_user_room st (get_sender_id e) (Plugin.group_of e) = Some r →
  parse_index (message_str e) = Some index →
  (0 ≤ index < plen r)%Z →
  ∃ song r',
    playlist r !! Z.to_nat index = Some song ∧
    Room.remove_song r index
      = (with_playlist r (delete (Z.to_nat index) (playlist r)), Some song) ∧
    Plugin.remove_song read_number st e
      = (Plugin.put_room st (Plugin.group_of e) r', [Removed song]) ∧
    playlist r' = delete (Z.to_nat index) (playlist r) ∧
    plen r' = (plen r - 1)%Z ∧
    current_index r'
      = (if (plen r' <=? current_index r)%Z
         then Z.max 0 (plen r' - 1) else current_index r) ∧
    is_playing r' = is_playing r.
Proof.
  intros Hr Hi Hrange.
  destruct (lookup_lt_is_Some_2 (playlist r) (Z.to_nat index)) as [song Hs].
  { unfold plen in Hrange. lia. }
  assert (Room.remove_song r index
          = (with_playlist r (delete (Z.to_nat index) (playlist r)),
             Some song)) as Hrm.
  { unfold Room.remove_song.
    replace ((0 <=? index) && (index <? plen r))%Z with true by lia.
    by rewrite Hs. }
  destruct (remove_song_some _ _ _ _ Hrm) as (_ & _ & _ & Hlen).
  exists song,
    (clamped (with_playlist r (delete (Z.to_nat index) (playlist r)))).
  split; [done|]. split; [done|]. split.
  { unfold Plugin.remove_song. by rewrite Hr, Hi, Hrm. }
  set (r1 := with_playlist r (delete (Z.to_nat index) (playlist r))) in *.
  unfold clamped. change (current_index r1) with (current_index r).
  destruct (plen r1 <=? current_index r)%Z eqn:Hle.
  - change (plen (with_current_index r1 ?c)) with (plen r1).
    rewrite Hle. done.
  - rewrite Hle. done.
Qed.

(** C4.  The removal handler, given the number that [re.search] and [int]
    read off the message, whatever they make of it: for an index of the
    playlist, [MusicRoom.remove_song] pops and returns the song
    at that index, the cursor is set to [max(0, len - 1)] when it is at or
    beyond the new length [len] and is kept otherwise, and the playing flag
    is kept; for any other index nothing is removed, the state is unchanged
    and the answer is the out-of-range message. *)
Theorem remove_song_removes_and_clamps st e r index :
  Plugin._get_user_room st (get_sender_id e) (Plugin.group_of e) = Some r →
  parse_index (message_str e) = Some index →
  ((0 ≤ index < plen r)%Z →
   ∃ song r',
     playlist r !! Z.to_nat index = Some song ∧
     Room.remove_song r index
       = (with_playlist r (delete (Z.to_nat index) (playlist r)), Some song) ∧
     Plugin.remove_song read_number st e
       = (Plugin.put_room st (Plugin.group_of e) r', [Removed song]) ∧
     playlist r' = delete (Z.to_nat index) (playlist r) ∧
     plen r' = (plen r - 1)%Z ∧
     current_index r'
       = (if (plen r' <=? current_index r)%Z
          then Z.max 0 (plen r' - 1) else current_index r) ∧
     is_playing r' = is_playing r) ∧
  (¬ (0 ≤ index < plen r)%Z →
   Room.remove_song r index = (r, None) ∧
   Plugin.remove_song read_number st e = (st, [IndexOutOfRange])).
Proof.
  intros Hr Hi. split; [by apply remove_song_in_range|].
  intros Hrange.
  assert (Room.remove_song r index = (r, None)) as Hrm.
  { unfold Room.remove_song.
    by replace ((0 <=? index) && (index <? plen r))%Z with false by lia. }
  split; [done|]. unfold Plugin.remove_song. by rewrite Hr, Hi, Hrm.
Qed.

(** C10.  Removing a song at an index below the cursor, the cursor not being
    at the last song, leaves the cursor's number as it was: the current song
    is then the song that stood one place after the former current song.
    The index is the one that [re.search] and [int] read off the message,
    whatever they make of it. *)
Theorem remove_below_cursor_shifts_current st e r index :
  Plugin._get_user_room st (get_sender_id e) (Plugin.group_of e) = Some r →
  parse_index (message_str e) = Some index →
  (0 ≤ index < current_index r)%Z →
  (current_index r + 1 < plen r)%Z →
  ∃ song r',
    Plugin.remove_song read_number st e
      = (Plugin.put_room st (Plugin.group_of e) r', [Removed song]) ∧
    current_index r' = current_index r ∧
    Room.get_current_song r = playlist r !! Z.to_nat (current_index r) ∧
    Room.get_current_song r'
      = playlist r !! S (Z.to_nat (current_index r)) ∧
    is_Some (Room.get_current_song r').
Proof.
  intros Hr Hi Hlt Hlast.
  destruct (remove_song_in_range st e r index Hr Hi)
    as (song & r' & _ & _ & Hh & Hpl & Hlen & Hc & _); [lia|].
  exists song, r'. split; [done|].
  replace (plen r' <=? current_index r)%Z with false in Hc by lia.
  split; [done|].
  assert (Room.get_current_song r'
          = playlist r !! S (Z.to_nat (current_index r))) as Hcur.
  { unfold Room.get_current_song. rewrite Hc.
    replace ((0 <=? current_index r) && (current_index r <? plen r'))%Z
      with true by lia.
    rewrite Hpl. apply list_lookup_delete_ge. lia. }
  split; [|split; [done|]].
  - unfold Room.get_current_song.
    by replace ((0 <=? current_index r) && (current_index r <? plen r))%Z
      with true by lia.
  - rewrite Hcur. apply lookup_lt_is_Some. unfold plen in Hlast. lia.
Qed.

End Removal.

(** ** One room per group *)

Lemma group_key_inj g1 g2 :
  Plugin._get_group_key g1 = Plugin._get_group_key g2 → g1 = g2.
Proof. unfold Plugin._get_group_key. cbn. intros H. by injection H. Qed.

(** C6.  [create_room] answers that a room exists, and changes nothing,
    whenever the group already has one, whoever asks; otherwise it files one
    new room under the group's key, owned by the caller, who is its only
    member.  Keys differ for different groups, and in every reachable state
    each room is filed under the key of its own group, so no group ever has
    two. *)
Theorem create_room_one_per_group :
  (∀ st e now r,
     rooms st !! Plugin._get_group_key (Plugin.group_of e) = Some r →
     Plugin.create_room st e now = (st, [RoomAlreadyExists])) ∧
  (∀ st e now,
     rooms st !! Plugin._get_group_key (Plugin.group_of e) = None →
     let key := Plugin._get_group_key (Plugin.group_of e) in
     let room :=
       mkRoom key (get_sender_id e) (Plugin.name_of e) (Plugin.group_of e)
              [] (-1) [(get_sender_id e, Plugin.name_of e)] false now
              "sequence" in
     Plugin.create_room st e now
       = (mkState (<[key := room]> (rooms st))
                  (<[Plugin.user_key (get_sender_id e) (Plugin.group_of e)
                     := key]> (user_room_map st))
                  (search_results st) (store st) (url_requests st),
          [RoomCreated (Plugin.name_of e)])) ∧
  (∀ g1 g2, Plugin._get_group_key g1 = Plugin._get_group_key g2 → g1 = g2) ∧
  (∀ qq_stream netease_stream strip_command read_number cmds k1 k2 r1 r2,
     let st :=
       Plugin.run qq_stream netease_stream strip_command read_number init
         cmds in
     rooms st !! k1 = Some r1 → rooms st !! k2 = Some r2 →
     group_id r1 = group_id r2 → k1 = k2 ∧ r1 = r2).
Proof.
  split; [|split; [|split]].
  - intros st e now r Hr. unfold Plugin.create_room. by rewrite Hr.
  - intros st e now Hr. cbn zeta. unfold Plugin.create_room. by rewrite Hr.
  - apply group_key_inj.
  - intros qq_stream netease_stream strip_command read_number cmds k1 k2 r1 r2
      st H1 H2 Hg.
    assert (k1 = k2) as ->.
    { rewrite (run_room_key _ _ _ _ _ _ _ H1), (run_room_key _ _ _ _ _ _ _ H2).
      by rewrite Hg. }
    split; [done|]. congruence.
Qed.

(** ** The laws on a concrete session *)

Ltac by_computation :=
  vm_compute; first [reflexivity | discriminate | lia | done].

Lemma session_rooms :
  rooms (session opened) !! "room_g1" = Some (room_with [] (-1) false) ∧
  rooms (session one_song) !! "room_g1"
    = Some (room_with [0%nat] (-1) false) ∧
  rooms (session playing_one) !! "room_g1"
    = Some (room_with [0%nat] 0 true) ∧
  rooms (session emptied) !! "room_g1" = Some (room_with [] 0 true) ∧
  rooms (session three_songs) !! "room_g1"
    = Some (room_with [0; 4; 5]%nat (-1) false) ∧
  rooms (session at_last) !! "room_g1"
    = Some (room_with [0; 4; 5]%nat 2 false) ∧
  rooms (session at_middle) !! "room_g1"
    = Some (room_with [0; 4; 5]%nat 1 false).
Proof. repeat split; by_computation. Qed.

(** C1, witness: the room whose only song was removed while current. *)
Lemma cursor_settled_witness :
  rooms (session emptied) !! "room_g1" = Some (room_with [] 0 true) ∧
  cursor_settled (room_with [] 0 true).
Proof.
  assert (rooms (session emptied) !! "room_g1" = Some (room_with [] 0 true))
    as H by by_computation.
  split; [exact H|].
  exact (cursor_settled_after_every_command offline offline as_is library emptied
           "room_g1" (room_with [] 0 true) H).
Defined.

(** C1, counterexample: with one song in the playlist and the cursor on it,
    removing song 1 leaves the cursor at [0] over an empty playlist, which
    is neither [-1] nor an index of the playlist. *)
Lemma removal_of_only_song_leaves_cursor_zero :
  rooms (session playing_one) !! "room_g1"
    = Some (room_with [0%nat] 0 true) ∧
  cursor_valid (room_with [0%nat] 0 true) ∧
  Plugin.remove_song library (session playing_one) (says "owner" "移除 1")
    = (session emptied, [Removed 0%nat]) ∧
  rooms (session emptied) !! "room_g1" = Some (room_with [] 0 true) ∧
  ¬ cursor_valid (room_with [] 0 true).
Proof.
  split; [by_computation|]. split; [right; by_computation|].
  split; [by_computation|]. split; [by_computation|].
  intros [H|H]; vm_compute in H; [discriminate|].
  destruct H as [_ H]. discriminate.
Qed.

(** C2, witness: two songs, two calls. *)
Lemma advance_wraps_after_len_witness :
  current_index (advance two_tracks [0; 0]%nat) = 0%Z ∧
  current_index (Room.next_song two_tracks 0).1 = 1%Z.
Proof.
  destruct (advance_wraps_after_len two_tracks [0; 0]%nat)
    as (H1 & H2 & _); [by_computation|by_computation|by_computation|].
  split; [exact H1|exact (H2 0%nat)].
Defined.

(** C2, counterexample: in sequence mode over two songs, from the first
    one, three calls (N + 1) end on the second song, not on the first. *)
Lemma advance_len_plus_one_moves_on :
  play_mode two_tracks ≠ "random" ∧
  (0 ≤ current_index two_tracks < plen two_tracks)%Z ∧
  length [0; 0; 0]%nat = S (length (playlist two_tracks)) ∧
  current_index (advance two_tracks [0; 0; 0]%nat) = 1%Z ∧
  current_index (advance two_tracks [0; 0; 0]%nat)
    ≠ current_index two_tracks.
Proof. repeat split; by_computation. Qed.

(** C3, witness: the owner selects hit 2 of three, then selects again;
    and, instead, sends no number, a number too long to be read, one out of
    range, or the number two in full-width form. *)
Lemma select_song_consumes_pending_witness :
  (Plugin.select_song offline offline library (session searched)
     (says "owner" "选歌 2")).2 = [SongAdded "owner" 1%nat 1] ∧
  Plugin.select_song offline offline library
    (Plugin.select_song offline offline library (session searched)
       (says "owner" "选歌 2")).1 (says "owner" "选歌 2")
  = ((Plugin.select_song offline offline library (session searched)
        (says "owner" "选歌 2")).1, [NoPendingSearch]) ∧
  Plugin.select_song offline offline library (session searched)
    (says "owner" "选歌")
  = (session searched, [BadNumber "/选歌 1"]) ∧
  Plugin.select_song offline offline library (session searched)
    (says "owner" ("选歌 " +:+ overlong))
  = (session searched, [BadNumber "/选歌 1"]) ∧
  Plugin.select_song offline offline library (session searched)
    (says "owner" "选歌 9")
  = (session searched, [IndexOutOfRange]) ∧
  (Plugin.select_song offline offline library (session searched)
     (says "owner" "选歌 ２")).2 = [SongAdded "owner" 1%nat 1].
Proof.
  pose proof (fun message =>
    select_song_consumes_pending offline offline library (session searched)
      (says "owner" message) (room_with [] (-1) false) [0; 1; 2]%nat
      ltac:(by_computation) ltac:(by_computation)) as H.
  destruct (H "选歌 2") as (Hok & _ & _).
  destruct (Hok 1%Z 1%nat ltac:(by_computation) ltac:(by_computation)
              ltac:(by_computation)) as (H1 & _ & _ & H4).
  destruct (H "选歌") as (_ & Hnone & _).
  destruct (H ("选歌 " +:+ overlong)) as (_ & Hlong & _).
  destruct (H "选歌 9") as (_ & _ & Hout).
  destruct (H "选歌 ２") as (Hwide & _ & _).
  destruct (Hwide 1%Z 1%nat ltac:(by_computation) ltac:(by_computation)
              ltac:(by_computation)) as (H5 & _).
  split; [exact H1|]. split; [exact (H4 _ eq_refl eq_refl)|].
  split; [exact (Hnone ltac:(by_computation))|].
  split; [exact (Hlong ltac:(by_computation))|].
  split; [|exact H5].
  exact (Hout 8%Z ltac:(by_computation) ltac:(right; by_computation)).
Defined.

(** C4, witness: three songs, the cursor on the last; removing song 3
    leaves the cursor at index 1, and song 7 is out of range, as is song 12
    written with a full-width one. *)
Lemma remove_song_removes_and_clamps_witness :
  (∃ r',
     Plugin.remove_song library (session at_last) (says "owner" "移除 3")
       = (Plugin.put_room (session at_last) "g1" r', [Removed 5%nat]) ∧
     playlist r' = [0; 4]%nat ∧ current_index r' = 1%Z ∧
     is_playing r' = false) ∧
  Plugin.remove_song library (session at_last) (says "owner" "移除 7")
    = (session at_last, [IndexOutOfRange]) ∧
  Plugin.remove_song library (session at_last) (says "owner" "移除 １2")
    = (session at_last, [IndexOutOfRange]).
Proof.
  destruct (remove_song_removes_and_clamps library (session at_last)
              (says "owner" "移除 3") (room_with [0; 4; 5]%nat 2 false) 2%Z
              ltac:(by_computation) ltac:(by_computation)) as [Hin _].
  destruct Hin as (song & r' & Hs & _ & Hh & Hp & Hl & Hc & Hf);
    [unfold plen; cbn; lia|].
  destruct (remove_song_removes_and_clamps library (session at_last)
              (says "owner" "移除 7") (room_with [0; 4; 5]%nat 2 false) 6%Z
              ltac:(by_computation) ltac:(by_computation)) as [_ Hout].
  destruct Hout as [_ Hout]; [unfold plen; cbn; lia|].
  destruct (remove_song_removes_and_clamps library (session at_last)
              (says "owner" "移除 １2") (room_with [0; 4; 5]%nat 2 false)
              11%Z ltac:(by_computation) ltac:(by_computation)) as [_ Hwide].
  destruct Hwide as [_ Hwide]; [unfold plen; cbn; lia|].
  split; [|split; [exact Hout|exact Hwide]].
  exists r'. vm_compute in Hs. injection Hs as <-.
  split; [exact Hh|]. split; [exact Hp|]. split; [|exact Hf].
  rewrite Hc, Hl. by_computation.
Defined.

(** C5, witness: [play] on the empty room, on the room with one song and no
    current song, and on the room already playing; [pause] on the room that
    is not playing. *)
Lemma play_pause_statuses_witness :
  Plugin.play offline offline (session opened) (says "owner" "播放")
    = (session opened, [PlaylistEmptyAddFirst]) ∧
  (∃ r',
     Plugin._get_user_room
       (Plugin.play offline offline (session one_song)
          (says "owner" "播放")).1 "owner" "g1" = Some r' ∧
     current_index r' = 0%Z ∧ is_playing r' = true) ∧
  Plugin.play offline offline (session playing_one) (says "guest" "播放")
    = (session playing_one, [AlreadyPlaying]) ∧
  Plugin.pause (session one_song) (says "owner" "暂停")
    = (session one_song, [NothingPlaying]).
Proof.
  destruct (play_pause_statuses offline offline as_is library)
    as (Hempty & Hstart & Hplaying & Hpaused).
  split.
  { exact (proj1 (Hempty (session opened) (says "owner" "播放")
                    (room_with [] (-1) false) ltac:(by_computation)
                    eq_refl)). }
  split.
  { destruct (Hstart one_song (says "owner" "播放")
                (room_with [0%nat] (-1) false) ltac:(by_computation)
                ltac:(discriminate) eq_refl) as (r' & H1 & H2 & H3 & _).
    exists r'. split; [exact H1|]. split; [exact H2|exact H3]. }
  split.
  { exact (proj1 (Hplaying (session playing_one) (says "guest" "播放")
                    (room_with [0%nat] 0 true) ltac:(by_computation)
                    ltac:(discriminate) eq_refl)). }
  exact (proj1 (Hpaused (session one_song) (says "owner" "暂停")
                  (room_with [0%nat] (-1) false) ltac:(by_computation)
                  eq_refl)).
Defined.

(** C5, counterexample: the only song is removed while it plays, which
    leaves the room flagged as playing over an empty playlist; [play] then
    answers with the empty-playlist refusal, which carries the error mark,
    and not with the already-playing message. *)
Lemma play_while_playing_refused_over_empty_playlist :
  rooms (session emptied) !! "room_g1" = Some (room_with [] 0 true) ∧
  is_playing (room_with [] 0 true) = true ∧
  Plugin.play offline offline (session emptied) (says "owner" "播放")
    = (session emptied, [PlaylistEmptyAddFirst]) ∧
  is_error PlaylistEmptyAddFirst = true ∧
  PlaylistEmptyAddFirst ≠ AlreadyPlaying.
Proof. repeat split; by_computation. Qed.

(** C6, witness: a guest asks for a second room in the owner's group; the
    owner opens the first room; the open room is the only one of its
    group. *)
Lemma create_room_one_per_group_witness :
  Plugin.create_room (session opened) (says "guest" "创建房间") 7
    = (session opened, [RoomAlreadyExists]) ∧
  Plugin.create_room init (says "owner" "创建房间") 0
    = (session opened, [RoomCreated "owner"]) ∧
  ("room_g1" = "room_g1" ∧ room_with [0%nat] (-1) false
                            = room_with [0%nat] (-1) false).
Proof.
  destruct create_room_one_per_group as (Hexists & Hnew & _ & Hone).
  split.
  { exact (Hexists (session opened) (says "guest" "创建房间") 7%Z
             (room_with [] (-1) false) ltac:(by_computation)). }
  split.
  { exact (Hnew init (says "owner" "创建房间") 0%Z ltac:(by_computation)). }
  exact (Hone offline offline as_is library one_song "room_g1" "room_g1"
           (room_with [0%nat] (-1) false) (room_with [0%nat] (-1) false)
           ltac:(by_computation) ltac:(by_computation) eq_refl).
Defined.

(** C7, witness: the song selected in the session has its link; a next-song
    command shows that link and asks the network nothing. *)
Lemma navigation_reuses_resolved_url_witness :
  url_requests
    (Plugin.handle offline offline as_is library (session playing_one)
       (NextSong 0, says "owner" "下一首")).1
  = url_requests (session playing_one) ∧
  shown
    (Plugin.handle offline offline as_is library (session playing_one)
       (NextSong 0, says "owner" "下一首")).2
  = Some (0%nat, "https://y.qq.com/n/ryqq/songDetail/m1").
Proof.
  destruct (navigation_reuses_resolved_url offline offline as_is library
              (session playing_one) (NextSong 0) (says "owner" "下一首")
              eq_refl) as (_ & _ & Hshown).
  destruct (Hshown 0%nat "https://y.qq.com/n/ryqq/songDetail/m1"
              (with_url (qq_song (track "m1"))
                 "https://y.qq.com/n/ryqq/songDetail/m1")
              ltac:(by_computation) ltac:(by_computation)
              ltac:(discriminate)) as (_ & Hreq & _).
  split; [exact Hreq|by_computation].
Defined.

(** C8, witness: over two songs from the first, back wraps to the second
    and forth returns to the first. *)
Lemma retreat_then_advance_returns_witness :
  current_index (Room.prev_song two_tracks).1 = 1%Z ∧
  current_index (Room.next_song (Room.prev_song two_tracks).1 0).1 = 0%Z.
Proof.
  destruct (retreat_then_advance_returns two_tracks 0%nat
              ltac:(discriminate)) as (_ & Hwrap & Hback).
  split; [exact (Hwrap eq_refl)|].
  exact (Hback ltac:(discriminate) ltac:(unfold plen; cbn; lia)).
Defined.

(** C9, witness: three unplayed songs, and one. *)
Lemma retreat_from_unset_cursor_witness :
  current_index (Room.prev_song (room_with [0; 4; 5]%nat (-1) false)).1
    = 1%Z ∧
  (Room.prev_song (room_with [0; 4; 5]%nat (-1) false)).2 = Some 4%nat ∧
  current_index (Room.prev_song (room_with [0%nat] (-1) false)).1 = 0%Z.
Proof.
  destruct (retreat_from_unset_cursor (room_with [0; 4; 5]%nat (-1) false)
              eq_refl) as [Hmany _].
  destruct (Hmany ltac:(unfold plen; cbn; lia)) as (H1 & H2 & _).
  destruct (retreat_from_unset_cursor (room_with [0%nat] (-1) false)
              eq_refl) as [_ Hone].
  destruct (Hone eq_refl) as (H3 & _).
  split; [exact H1|]. split; [exact H2|exact H3].
Defined.

(** C10, witness: three songs with the cursor on the middle one; removing
    song 1 keeps the cursor at index 1, where the former third song now
    stands. *)
Lemma remove_below_cursor_shifts_current_witness :
  Room.get_current_song (room_with [0; 4; 5]%nat 1 false) = Some 4%nat ∧
  ∃ r',
    Plugin.remove_song library (session at_middle) (says "owner" "移除 1")
      = (Plugin.put_room (session at_middle) "g1" r', [Removed 0%nat]) ∧
    current_index r' = 1%Z ∧
    Room.get_current_song r' = Some 5%nat.
Proof.
  destruct (remove_below_cursor_shifts_current library (session at_middle)
              (says "owner" "移除 1") (room_with [0; 4; 5]%nat 1 false) 0%Z
              ltac:(by_computation) ltac:(by_computation)
              ltac:(cbn; lia) ltac:(unfold plen; cbn; lia))
    as (song & r' & Hh & Hc & Hold & Hnew & _).
  split; [exact Hold|]. exists r'.
  assert (song = 0%nat) as ->.
  { assert (H : Plugin.remove_song library (session at_middle) (says "owner" "移除 1")
                = (Plugin.put_room (session at_middle) "g1"
                     (room_with [4; 5]%nat 1 false), [Removed 0%nat]))
      by by_computation.
    rewrite Hh in H. apply (f_equal snd) in H. cbn [snd] in H.
    by injection H. }
  split; [exact Hh|]. split; [exact Hc|exact Hnew].
Defined.


(** * Further laws of the handlers *)

Section Frames.
Variable qq_stream netease_stream : nat → string → option string.
Variable strip_command : string → string → string.
Variable read_number : string → Number.

Abbreviation handle :=
  (Plugin.handle qq_stream netease_stream strip_command read_number).
Abbreviation run :=
  (Plugin.run qq_stream netease_stream strip_command read_number).
Abbreviation ensure_url := (Plugin.ensure_url qq_stream netease_stream).
Abbreviation fetch_url := (Plugin.fetch_url qq_stream netease_stream).

Lemma fetch_url_frame st l :
  rooms (fetch_url st l).1 = rooms st ∧
  user_room_map (fetch_url st l).1 = user_room_map st ∧
  search_results (fetch_url st l).1 = search_results st.
Proof. unfold Plugin.fetch_url. by destruct (store st !! l). Qed.

Lemma ensure_url_frame st l :
  rooms (ensure_url st l).1 = rooms st ∧
  user_room_map (ensure_url st l).1 = user_room_map st ∧
  search_results (ensure_url st l).1 = search_results st.
Proof.
  unfold Plugin.ensure_url. destruct (store st !! l); [|done].
  destruct (String.eqb _ _); [apply fetch_url_frame|done].
Qed.

(** Turn [let '(st, link) := ensure_url X l in _] into projections. *)
Lemma ensure_url_pair st l : ensure_url st l = ((ensure_url st l).1, (ensure_url st l).2).
Proof. by destruct (ensure_url st l). Qed.

Lemma ensure_url_eq_frame st l st' link :
  ensure_url st l = (st', link) →
  rooms st' = rooms st ∧ user_room_map st' = user_room_map st ∧
  search_results st' = search_results st.
Proof. intros H. pose proof (ensure_url_frame st l) as F. by rewrite H in F. Qed.

End Frames.

Ltac open_handlers :=
  unfold Plugin.handle; cbn [fst snd];
  unfold Plugin.create_room, Plugin.join_room, Plugin.leave_room,
    Plugin.close_room, Plugin.search_song, Plugin.select_song,
    Plugin.show_playlist, Plugin.play, Plugin.pause, Plugin.next_song,
    Plugin.prev_song, Plugin.skip_to, Plugin.remove_song,
    Plugin.clear_playlist, Plugin.set_play_mode, Plugin.room_info,
    Plugin.help_cmd, Plugin._get_user_room.

Ltac settle_urls :=
  repeat match goal with
  | H : Plugin.ensure_url _ _ ?X ?l = (?s, ?u) |- _ =>
      let Fr := fresh "Fr" in let Fu := fresh "Fu" in let Fs := fresh "Fs" in
      destruct (ensure_url_eq_frame _ _ X l s u H) as (Fr & Fu & Fs);
      rewrite ?Fr, ?Fu, ?Fs; clear H
  end.

Section Effects.
Variable qq_stream netease_stream : nat → string → option string.
Variable strip_command : string → string → string.
Variable read_number : string → Number.

Abbreviation handle :=
  (Plugin.handle qq_stream netease_stream strip_command read_number).
Abbreviation run :=
  (Plugin.run qq_stream netease_stream strip_command read_number).

(** X1.  Without a room for the group nothing but [create_room] changes the plugin state. *)
Theorem no_room_no_change st c e :
  rooms st !! Plugin._get_group_key (Plugin.group_of e) = None →
  (∀ now, c ≠ CreateRoom now) →
  (handle st (c, e)).1 = st ∧
  (c ≠ HelpCmd → (∀ qq netease, c ≠ SearchSong qq netease) →
   ∃ reply, (handle st (c, e)).2 = [reply] ∧ is_error reply = true).
Proof.
  intros Hnone Hc.
  destruct c; open_handlers; rewrite ?Hnone; cbn [fst snd];
    try (split; [done|]; intros; eexists; split; reflexivity).
  - by destruct (Hc now).
  - destruct (String.eqb _ _); (split; [done|]); intros _ H;
      by destruct (H qq netease).
  - split; [done|]. intros H. by destruct H.
Qed.

(** X2.  A command leaves the rooms of every other group as they are. *)
Theorem other_groups_untouched st c e k :
  k ≠ Plugin._get_group_key (Plugin.group_of e) →
  rooms (handle st (c, e)).1 !! k = rooms st !! k.
Proof.
  intros Hk.
  destruct c; open_handlers; unfold Plugin.put_room;
    repeat case_match; cbn [fst snd]; settle_urls; cbn;
    rewrite ?(proj1 (fetch_url_frame _ _ _ _));
    rewrite ?lookup_insert_ne, ?lookup_delete_ne by done; done.
Qed.

(** X3.  Pending search results of every other caller are left as they are. *)
Theorem other_callers_pending_untouched st c e k :
  k ≠ Plugin.user_key (get_sender_id e) (Plugin.group_of e) →
  search_results (handle st (c, e)).1 !! k = search_results st !! k.
Proof.
  intros Hk.
  destruct c; open_handlers; unfold Plugin.put_room;
    repeat case_match; cbn [fst snd]; settle_urls; cbn;
    rewrite ?(proj2 (proj2 (fetch_url_frame _ _ _ _)));
    rewrite ?lookup_insert_ne, ?lookup_delete_ne by done; done.
Qed.
End Effects.

(** ** Membership *)

Lemma dict_mem_keys k d : dict_mem k d = true ↔ k ∈ keys d.
Proof.
  induction d as [|[k' v'] d IH]; cbn.
  - split; [done|]. by intros ?%elem_of_nil.
  - destruct (String.eqb k' k) eqn:E.
    + apply String.eqb_eq in E as ->. split; [|done]. intros _. by left.
    + apply String.eqb_neq in E. rewrite IH. split.
      * intros H. by right.
      * intros [?|H]%elem_of_cons; [congruence|done].
Qed.

Lemma dict_mem_false k d : dict_mem k d = false ↔ k ∉ keys d.
Proof.
  rewrite <- dict_mem_keys. by destruct (dict_mem k d).
Qed.

Lemma dict_set_new k v d : dict_mem k d = false → dict_set k v d = d ++ [(k, v)].
Proof.
  induction d as [|[k' v'] d IH]; cbn; [done|].
  destruct (String.eqb k' k); [done|]. intros H. by rewrite IH.
Qed.

Lemma dict_del_new k v d : dict_mem k d = false → dict_del k (d ++ [(k, v)]) = d.
Proof.
  induction d as [|[k' v'] d IH]; cbn.
  - by rewrite String.eqb_refl.
  - destruct (String.eqb k' k); [done|]. intros H. by rewrite IH.
Qed.

Lemma dict_set_keys k v d :
  keys (dict_set k v d) = if dict_mem k d then keys d else keys d ++ [k].
Proof.
  induction d as [|[k' v'] d IH]; cbn; [done|].
  destruct (String.eqb k' k) eqn:E; cbn.
  - apply String.eqb_eq in E. by subst.
  - unfold keys in *. rewrite IH. by destruct (dict_mem k d).
Qed.

Lemma dict_del_keys_sub k k0 d : k0 ∈ keys (dict_del k d) → k0 ∈ keys d.
Proof.
  induction d as [|[k' v'] d IH]; cbn; [done|].
  destruct (String.eqb k' k); cbn.
  - intros H. by right.
  - intros [->|H]%elem_of_cons; [by left|right; by apply IH].
Qed.

Lemma dict_del_keys_nodup k d : NoDup (keys d) → NoDup (keys (dict_del k d)) ∧ k ∉ keys (dict_del k d).
Proof.
  induction d as [|[k' v'] d IH]; cbn.
  - intros _. split; [constructor|]. by intros ?%elem_of_nil.
  - intros [Hn Hd]%NoDup_cons. destruct (String.eqb k' k) eqn:E.
    + apply String.eqb_eq in E as ->. done.
    + apply String.eqb_neq in E. destruct (IH Hd) as [IH1 IH2]. cbn. split.
      * apply NoDup_cons. split; [|done]. intros H. apply Hn.
        by apply dict_del_keys_sub in H.
      * intros [?|H]%elem_of_cons; [congruence|done].
Qed.

Lemma dict_del_other k k0 d : k0 ≠ k → dict_mem k0 (dict_del k d) = dict_mem k0 d.
Proof.
  intros Hne. induction d as [|[k' v'] d IH]; cbn; [done|].
  destruct (String.eqb k' k) eqn:E; cbn.
  - apply String.eqb_eq in E as ->.
    by replace (String.eqb k k0) with false by (symmetry; by apply String.eqb_neq).
  - by rewrite IH.
Qed.

Lemma dict_set_nodup k v d : NoDup (keys d) → NoDup (keys (dict_set k v d)).
Proof.
  intros Hd. rewrite dict_set_keys. destruct (dict_mem k d) eqn:E; [done|].
  apply NoDup_app. split; [done|]. split; [|apply NoDup_singleton].
  intros x Hx ->%list_elem_of_singleton. by apply dict_mem_false in E.
Qed.

(** X4.  The playback and listing commands answer any sender alike. *)
Theorem playback_ignores_sender qq_stream netease_stream strip_command
    read_number st c e e' :
  open_to_all c = true →
  Plugin.group_of e' = Plugin.group_of e →
  message_str e' = message_str e →
  Plugin.handle qq_stream netease_stream strip_command read_number st (c, e')
  = Plugin.handle qq_stream netease_stream strip_command read_number st (c, e).
Proof.
  intros Hc Hg Hm. destruct c; try done; unfold Plugin.handle; cbn [fst snd];
  unfold Plugin.show_playlist, Plugin.play, Plugin.pause, Plugin.next_song,
    Plugin.prev_song, Plugin.skip_to, Plugin.remove_song,
    Plugin.set_play_mode, Plugin.room_info,
    Plugin.help_cmd, Plugin._get_user_room; by rewrite ?Hg, ?Hm.
Qed.

Lemma join_room_new st e r :
  rooms st !! room_key e = Some r →
  dict_mem (get_sender_id e) (members r) = false →
  Plugin.join_room st e
  = (mkState
       (<[room_key e :=
          with_members r
            (members r ++ [(get_sender_id e, Plugin.name_of e)])]>
          (rooms st))
       (<[caller_key e := room_id r]> (user_room_map st))
       (search_results st) (store st) (url_requests st),
     [Joined (Plugin.name_of e) (S (length (members r)))]).
Proof.
  intros H Hm. unfold Plugin.join_room, Plugin._get_user_room. rewrite H, Hm.
  unfold Room.add_member. rewrite dict_set_new by done.
  cbn. rewrite length_app. cbn. by rewrite Nat.add_1_r.
Qed.

(** X5.  [join_room] answers that there is no room, or that the caller is in
    already, without changing anything; otherwise it appends the caller to
    the members and files the reverse index entry, and a second join by the
    same caller changes nothing more. *)
Theorem join_room_adds_once st e :
  (rooms st !! room_key e = None →
   Plugin.join_room st e = (st, [NoRoomToJoin])) ∧
  (∀ r, rooms st !! room_key e = Some r →
        dict_mem (get_sender_id e) (members r) = true →
        Plugin.join_room st e = (st, [AlreadyInRoom])) ∧
  (∀ r, rooms st !! room_key e = Some r →
        dict_mem (get_sender_id e) (members r) = false →
        Plugin.join_room st e
        = (mkState
             (<[room_key e :=
                with_members r
                  (members r ++ [(get_sender_id e, Plugin.name_of e)])]>
                (rooms st))
             (<[caller_key e := room_id r]> (user_room_map st))
             (search_results st) (store st) (url_requests st),
           [Joined (Plugin.name_of e) (S (length (members r)))]) ∧
        Plugin.join_room (Plugin.join_room st e).1 e
        = ((Plugin.join_room st e).1, [AlreadyInRoom])).
Proof.
  split; [|split].
  - intros H. unfold Plugin.join_room, Plugin._get_user_room. by rewrite H.
  - intros r H Hm. unfold Plugin.join_room, Plugin._get_user_room.
    by rewrite H, Hm.
  - intros r H Hm. pose proof (join_room_new st e r H Hm) as Hj.
    split; [done|]. rewrite Hj. cbn [fst].
    unfold Plugin.join_room, Plugin._get_user_room. cbn [rooms].
    rewrite lookup_insert_eq. cbn [members with_members].
    replace (dict_mem (get_sender_id e)
               (members r ++ [(get_sender_id e, Plugin.name_of e)]))
      with true; [done|].
    symmetry. apply dict_mem_keys. unfold keys. rewrite fmap_app.
    apply elem_of_app. right. cbn. by left.
Qed.

Lemma with_members_same r : with_members r (members r) = r.
Proof. by destruct r. Qed.

Lemma dict_del_absent k d : dict_mem k d = false → dict_del k d = d.
Proof.
  induction d as [|[k' v'] d IH]; cbn; [done|].
  destruct (String.eqb k' k); [done|]. intros H. by rewrite IH.
Qed.

Lemma leave_room_other st e r :
  rooms st !! room_key e = Some r →
  get_sender_id e ≠ owner_id r →
  Plugin.leave_room st e
  = (mkState
       (<[room_key e :=
          with_members r (dict_del (get_sender_id e) (members r))]>
          (rooms st))
       (delete (caller_key e) (user_room_map st))
       (search_results st) (store st) (url_requests st),
     [Left (Plugin.name_of e)]).
Proof.
  intros H Ho. unfold Plugin.leave_room, Plugin._get_user_room. rewrite H.
  apply String.eqb_neq in Ho. rewrite Ho. unfold Room.remove_member.
  destruct (dict_mem _ _) eqn:Hm; cbn [fst]; [done|].
  rewrite dict_del_absent by done. by rewrite with_members_same.
Qed.

(** X6.  [leave_room] refuses the owner and changes nothing; for anyone else
    it takes the caller out of the members and drops the reverse index
    entry, whether or not the caller had joined. *)
Theorem leave_room_removes_caller st e :
  (rooms st !! room_key e = None →
   Plugin.leave_room st e = (st, [NotInAnyRoom])) ∧
  (∀ r, rooms st !! room_key e = Some r →
        get_sender_id e = owner_id r →
        Plugin.leave_room st e = (st, [OwnerMustClose])) ∧
  (∀ r, rooms st !! room_key e = Some r →
        get_sender_id e ≠ owner_id r →
        Plugin.leave_room st e
        = (mkState
             (<[room_key e :=
                with_members r (dict_del (get_sender_id e) (members r))]>
                (rooms st))
             (delete (caller_key e) (user_room_map st))
             (search_results st) (store st) (url_requests st),
           [Left (Plugin.name_of e)]) ∧
        (NoDup (keys (members r)) →
         dict_mem (get_sender_id e)
           (dict_del (get_sender_id e) (members r)) = false) ∧
        dict_mem (owner_id r) (dict_del (get_sender_id e) (members r))
        = dict_mem (owner_id r) (members r)).
Proof.
  split; [|split].
  - intros H. unfold Plugin.leave_room, Plugin._get_user_room. by rewrite H.
  - intros r H Ho. unfold Plugin.leave_room, Plugin._get_user_room.
    rewrite H, Ho. by rewrite String.eqb_refl.
  - intros r H Ho. split; [|split].
    + by apply leave_room_other.
    + intros Hd. apply dict_mem_false. by apply dict_del_keys_nodup.
    + by apply dict_del_other.
Qed.

(** X7.  Joining and then leaving restores the plugin state. *)
Theorem join_then_leave_restores st e r :
  rooms st !! room_key e = Some r →
  get_sender_id e ≠ owner_id r →
  dict_mem (get_sender_id e) (members r) = false →
  user_room_map st !! caller_key e = None →
  (Plugin.leave_room (Plugin.join_room st e).1 e).1 = st.
Proof.
  intros H Ho Hm Hu. rewrite (join_room_new st e r H Hm). cbn [fst].
  rewrite (leave_room_other _ e
             (with_members r
                (members r ++ [(get_sender_id e, Plugin.name_of e)])));
    [|cbn; apply lookup_insert_eq|done].
  cbn [fst rooms user_room_map search_results store url_requests
       members with_members].
  rewrite dict_del_new by done.
  rewrite insert_insert_eq, delete_insert_eq.
  rewrite (delete_id _ _ Hu).
  assert (with_members
            (with_members r
               (members r ++ [(get_sender_id e, Plugin.name_of e)]))
            (members r) = r) as -> by (by destruct r).
  rewrite (insert_id _ _ _ H). by destruct st.
Qed.

(** ** Who may be where: owner, members and mode *)

Section Upkeep.
Variable qq_stream netease_stream : nat → string → option string.
Variable strip_command : string → string → string.
Variable read_number : string → Number.

Abbreviation handle :=
  (Plugin.handle qq_stream netease_stream strip_command read_number).
Abbreviation run :=
  (Plugin.run qq_stream netease_stream strip_command read_number).

Lemma next_song_upkeep r draw : upkeep r (Room.next_song r draw).1.
Proof.
  unfold Room.next_song. destruct (playlist r); cbn; [by constructor|].
  destruct (String.eqb _ _); by constructor.
Qed.

Lemma prev_song_upkeep r : upkeep r (Room.prev_song r).1.
Proof. unfold Room.prev_song. destruct (playlist r); by constructor. Qed.

Lemma remove_song_upkeep r index : upkeep r (Room.remove_song r index).1.
Proof. unfold Room.remove_song. destruct (_ && _); by constructor. Qed.

Lemma handle_upkeep st ce k r' :
  rooms (handle st ce).1 !! k = Some r' →
  rooms st !! k = Some r' ∨
  (∃ r, rooms st !! k = Some r ∧ upkeep r r') ∨
  founded r'.
Proof.
  destruct ce as [c e].
  destruct c; open_handlers; unfold Plugin.put_room;
    repeat case_match; cbn [fst snd]; settle_urls;
    cbn [rooms with_rooms with_user_room_map with_search_results];
    rewrite ?(proj1 (fetch_url_frame _ _ _ _));
    try (by left);
    try (rewrite lookup_insert; case_decide; [intros [= <-]; subst k|by left]);
    try (rewrite lookup_delete; case_decide; [done|by left]);
    try (right; right; by split);
    right; left; eexists; (split; [eassumption|]);
    try (by constructor);
    try match goal with
    | H : Room.next_song ?m ?d = (?m0, _) |- upkeep ?m ?m0 =>
        replace m0 with (Room.next_song m d).1 by (by rewrite H);
        apply next_song_upkeep
    | H : Room.prev_song ?m = (?m0, _) |- upkeep ?m ?m0 =>
        replace m0 with (Room.prev_song m).1 by (by rewrite H);
        apply prev_song_upkeep
    | H : Room.remove_song ?m ?i = (?m0, _) |- upkeep ?m _ =>
        unfold Room.remove_song in H; case_match; simplify_eq;
        by constructor
    | H : String.eqb ?u (owner_id ?m) = false |- _ =>
        apply upkeep_leave; by apply String.eqb_neq
    | |- upkeep _ (with_play_mode _ _) => apply upkeep_mode; by auto
    end.
Qed.

Lemma upkeep_well_kept r r' : upkeep r r' → well_kept r → well_kept r'.
Proof.
  intros [r2 Ho Hm Hp|u n|u Hu|m Hm] (Hown & Hdup & Hmode); unfold well_kept.
  - by rewrite Ho, Hm, Hp.
  - cbn. split; [|split; [by apply dict_set_nodup|done]].
    apply dict_mem_keys. rewrite dict_set_keys.
    apply dict_mem_keys in Hown.
    destruct (dict_mem u (members r)); [done|]. apply elem_of_app. by left.
  - unfold Room.remove_member. destruct (dict_mem u (members r)); [|done].
    cbn. split; [|split; [by apply dict_del_keys_nodup|done]].
    rewrite dict_del_other; [done|]. congruence.
  - cbn. split; [done|]. split; [done|]. done.
Qed.

Lemma founded_well_kept r : founded r → well_kept r.
Proof.
  intros [Hm Hp]. unfold well_kept. rewrite Hm, Hp. cbn.
  rewrite String.eqb_refl. split; [done|]. split; [|by left].
  apply NoDup_singleton.
Qed.

(** X8.  In every reachable state the owner of a room is one of its members,
    no member is listed twice, and the mode is one of the two the mode
    command sets. *)
Theorem rooms_well_kept cmds k r :
  rooms (run init cmds) !! k = Some r → well_kept r.
Proof.
  revert k r. induction cmds as [|ce cmds IH] using rev_ind; intros k r.
  - cbn. by rewrite lookup_empty.
  - unfold Plugin.run. rewrite foldl_app. cbn [foldl].
    intros H. apply handle_upkeep in H.
    destruct H as [H|[(r0 & H & Hs)|H]].
    + by eapply IH.
    + eapply upkeep_well_kept; [done|]. by eapply IH.
    + by apply founded_well_kept.
Qed.
End Upkeep.

(** ** Closing a room *)

Lemma evict_cons g u v d m :
  evict g ((u, v) :: d) m = evict g d (delete (Plugin.user_key u g) m).
Proof. done. Qed.

Lemma evict_none g d : ∀ m k, m !! k = None → evict g d m !! k = None.
Proof.
  induction d as [|[u v] d IH]; intros m k Hk; [done|].
  rewrite evict_cons. apply IH. rewrite lookup_delete. by case_decide.
Qed.

Lemma evict_member g d : ∀ m u,
  u ∈ keys d → evict g d m !! Plugin.user_key u g = None.
Proof.
  induction d as [|[u' v] d IH]; intros m u Hu; [by apply elem_of_nil in Hu|].
  rewrite evict_cons. cbn in Hu. apply elem_of_cons in Hu as [->|Hu].
  - apply evict_none. apply lookup_delete_eq.
  - by apply IH.
Qed.

Lemma evict_other g d : ∀ m k,
  (∀ u, u ∈ keys d → k ≠ Plugin.user_key u g) → evict g d m !! k = m !! k.
Proof.
  induction d as [|[u' v] d IH]; intros m k Hk; [done|].
  rewrite evict_cons, IH.
  - apply lookup_delete_ne. intros E. eapply Hk; [|done]. cbn. by left.
  - intros u Hu. apply Hk. cbn. by right.
Qed.

Lemma close_room_owner st e r :
  rooms st !! room_key e = Some r →
  get_sender_id e = owner_id r →
  Plugin.close_room st e
  = (mkState (delete (room_key e) (rooms st))
             (evict (Plugin.group_of e) (members r) (user_room_map st))
             (search_results st) (store st) (url_requests st),
     [RoomClosed]).
Proof.
  intros H Ho. unfold Plugin.close_room, Plugin._get_user_room.
  rewrite H, Ho. by rewrite String.eqb_refl.
Qed.

(** X9.  [close_room] refuses anyone but the owner and changes nothing; for
    the owner it deletes the room and the reverse index entry of every
    member, leaves every other entry, the pending searches and the songs as
    they are, and the group can then open a new room. *)
Theorem close_room_evicts_members st e :
  (rooms st !! room_key e = None →
   Plugin.close_room st e = (st, [NoRoom])) ∧
  (∀ r, rooms st !! room_key e = Some r →
        get_sender_id e ≠ owner_id r →
        Plugin.close_room st e = (st, [OnlyOwnerCloses])) ∧
  (∀ r, rooms st !! room_key e = Some r →
        get_sender_id e = owner_id r →
        (Plugin.close_room st e).2 = [RoomClosed] ∧
        rooms (Plugin.close_room st e).1 = delete (room_key e) (rooms st) ∧
        (∀ u, u ∈ keys (members r) →
              user_room_map (Plugin.close_room st e).1
                !! Plugin.user_key u (Plugin.group_of e) = None) ∧
        (∀ k, (∀ u, u ∈ keys (members r) →
                    k ≠ Plugin.user_key u (Plugin.group_of e)) →
              user_room_map (Plugin.close_room st e).1 !! k
              = user_room_map st !! k) ∧
        search_results (Plugin.close_room st e).1 = search_results st ∧
        store (Plugin.close_room st e).1 = store st ∧
        ∀ e2 now, Plugin.group_of e2 = Plugin.group_of e →
                  (Plugin.create_room (Plugin.close_room st e).1 e2 now).2
                  = [RoomCreated (Plugin.name_of e2)]).
Proof.
  split; [|split].
  - intros H. unfold Plugin.close_room, Plugin._get_user_room. by rewrite H.
  - intros r H Ho. unfold Plugin.close_room, Plugin._get_user_room.
    rewrite H. apply String.eqb_neq in Ho. by rewrite Ho.
  - intros r H Ho. rewrite (close_room_owner st e r H Ho). cbn [fst snd].
    split; [done|]. split; [done|]. split; [apply evict_member|].
    split; [apply evict_other|]. split; [done|]. split; [done|].
    intros e2 now Hg. unfold Plugin.create_room. rewrite Hg. cbn [rooms].
    by rewrite lookup_delete_eq.
Qed.

(** ** Navigation always lands on a song *)

Lemma get_current_song_at r :
  (0 ≤ current_index r < plen r)%Z →
  Room.get_current_song r = playlist r !! Z.to_nat (current_index r) ∧
  is_Some (Room.get_current_song r).
Proof.
  intros Hc. unfold Room.get_current_song.
  replace ((0 <=? current_index r) && (current_index r <? plen r))%Z
    with true by lia.
  split; [done|]. apply lookup_lt_is_Some. unfold plen in Hc. lia.
Qed.

Lemma next_song_returns_current r draw :
  playlist r ≠ [] →
  (Room.next_song r draw).2 = Room.get_current_song (Room.next_song r draw).1.
Proof.
  intros Hp. unfold Room.next_song. by destruct (playlist r).
Qed.

Lemma prev_song_returns_current r :
  playlist r ≠ [] →
  (Room.prev_song r).2 = Room.get_current_song (Room.prev_song r).1.
Proof.
  intros Hp. unfold Room.prev_song. by destruct (playlist r).
Qed.

(** X10.  On a playlist with songs, whatever the mode and wherever the cursor
    was, [next_song] and [prev_song] leave the cursor on an index of the
    playlist and return the song there; on an empty playlist they return
    nothing and change nothing. *)
Theorem next_prev_land_on_a_song r draw :
  (playlist r ≠ [] →
   (0 ≤ current_index (Room.next_song r draw).1 < plen r)%Z ∧
   (Room.next_song r draw).2
   = playlist r !! Z.to_nat (current_index (Room.next_song r draw).1) ∧
   is_Some (Room.next_song r draw).2 ∧
   (0 ≤ current_index (Room.prev_song r).1 < plen r)%Z ∧
   (Room.prev_song r).2
   = playlist r !! Z.to_nat (current_index (Room.prev_song r).1) ∧
   is_Some (Room.prev_song r).2) ∧
  (playlist r = [] →
   Room.next_song r draw = (r, None) ∧ Room.prev_song r = (r, None)).
Proof.
  split.
  - intros Hp. pose proof (plen_nonempty r Hp) as Hn.
    destruct (next_song_frame r draw) as (Hpl1 & _).
    destruct (prev_song_frame r) as (Hpl2 & _).
    assert (0 ≤ current_index (Room.next_song r draw).1 < plen r)%Z as H1.
    { rewrite next_song_cursor by done.
      destruct (String.eqb _ _).
      - pose proof (randint_range 0 (plen r - 1) draw). lia.
      - apply Z.mod_pos_bound. lia. }
    assert (0 ≤ current_index (Room.prev_song r).1 < plen r)%Z as H2.
    { rewrite prev_song_cursor by done. apply Z.mod_pos_bound. lia. }
    rewrite next_song_returns_current, prev_song_returns_current by done.
    destruct (get_current_song_at (Room.next_song r draw).1) as [E1 S1].
    { unfold plen in *. by rewrite Hpl1. }
    destruct (get_current_song_at (Room.prev_song r).1) as [E2 S2].
    { unfold plen in *. by rewrite Hpl2. }
    rewrite Hpl1 in E1. rewrite Hpl2 in E2. done.
  - intros Hp. unfold Room.next_song, Room.prev_song. by rewrite Hp.
Qed.

(** X11.  In random mode [next_song] can land on every index of the playlist,
    the current one included, and on nothing else. *)
Theorem random_next_reaches_every_index r :
  playlist r ≠ [] → play_mode r = "random" →
  (∀ draw, (0 ≤ current_index (Room.next_song r draw).1 < plen r)%Z) ∧
  (∀ i, (0 ≤ i < plen r)%Z →
        ∃ draw, current_index (Room.next_song r draw).1 = i ∧
                (Room.next_song r draw).2 = playlist r !! Z.to_nat i).
Proof.
  intros Hp Hm. pose proof (plen_nonempty r Hp) as Hn.
  assert (∀ draw, current_index (Room.next_song r draw).1
                  = Room.randint 0 (plen r - 1) draw) as Hc.
  { intros draw. rewrite next_song_cursor by done. by rewrite Hm. }
  split.
  - intros draw. rewrite Hc. pose proof (randint_range 0 (plen r - 1) draw). lia.
  - intros i Hi. exists (Z.to_nat i).
    assert (current_index (Room.next_song r (Z.to_nat i)).1 = i) as Hci.
    { rewrite Hc. unfold Room.randint. rewrite Z2Nat.id by lia.
      rewrite Z.mod_small by lia. lia. }
    split; [done|].
    rewrite next_song_returns_current by done.
    destruct (next_song_frame r (Z.to_nat i)) as (Hpl & _).
    destruct (get_current_song_at (Room.next_song r (Z.to_nat i)).1) as [-> _].
    { unfold plen. rewrite Hpl. fold (plen r). lia. }
    by rewrite Hpl, Hci.
Qed.

(** ** Numbers in messages *)

Lemma byte_range c : (0 ≤ Py.byte c < 256)%Z.
Proof.
  unfold Py.byte. pose proof (N_ascii_bounded c). lia.
Qed.

Lemma decode_ascii st c s :
  (Py.byte c < 0x80)%Z →
  Py.decode st (String c s)
  = match st.1.1 with O => [] | S _ => [Py.bad] end
    ++ Py.byte c :: Py.code_points s.
Proof.
  intros Hc. destruct st as [[need acc] low]. cbn [Py.decode].
  unfold Py.step. destruct need as [|more]; cbn [fst snd].
  - unfold Py.start.
    replace (Py.byte c <? 0x80)%Z with true by lia. done.
  - replace ((0x80 <=? Py.byte c) && (Py.byte c <? 0xC0))%Z
      with false by lia.
    unfold Py.start.
    replace (Py.byte c <? 0x80)%Z with true by lia. done.
Qed.

(** A text that ends where an ASCII character begins decodes on its own. *)
Lemma decode_app p c s : ∀ st,
  (Py.byte c < 0x80)%Z →
  Py.decode st (p +:+ String c s)
  = Py.decode st p ++ Py.code_points (String c s).
Proof.
  induction p as [|b p IH]; intros st Hc.
  - change ("" +:+ String c s) with (String c s).
    unfold Py.code_points. rewrite !decode_ascii by done.
    destruct st as [[[|more] acc] low]; by cbn.
  - change (String b p +:+ String c s) with (String b (p +:+ String c s)).
    cbn [Py.decode]. rewrite IH by done. by rewrite app_assoc.
Qed.

Lemma code_points_ascii t s :
  Forall (fun c => (Py.byte c < 0x80)%Z) (list_ascii_of_string t) →
  Py.code_points (t +:+ s)
  = (Py.byte <$> list_ascii_of_string t) ++ Py.code_points s.
Proof.
  induction t as [|c t IH]; [done|].
  cbn [list_ascii_of_string]. intros [Hc Ht]%Forall_cons_1.
  change (String c t +:+ s) with (String c (t +:+ s)).
  unfold Py.code_points at 1. rewrite decode_ascii by done.
  cbn. f_equal. by apply IH.
Qed.

Section Interpreter.
Variable scripts : list Z.
Variable max_str_digits : Z.

Abbreviation decimal := (Py.decimal scripts).
Abbreviation run_of := (Py.run scripts).
Abbreviation re_search := (Py.re_search scripts).

Lemma decimal_ascii c :
  (0x30 ≤ c < 0x3A)%Z → decimal c = Some (c - 0x30)%Z.
Proof.
  intros Hc. unfold Py.decimal.
  by replace ((0x30 <=? c) && (c <? 0x3A))%Z with true by lia.
Qed.

Lemma decimal_lower c d : decimal c = Some d → (0 ≤ d)%Z.
Proof.
  unfold Py.decimal. destruct (_ && _) eqn:E; [intros [= <-]; lia|].
  destruct (find _ _) as [zero|] eqn:F; [|done].
  apply find_some in F as [_ F]. intros [= <-]. lia.
Qed.

Lemma re_search_skip cs cs' :
  re_search cs = None → re_search (cs ++ cs') = re_search cs'.
Proof.
  induction cs as [|c cs IH]; [done|]. cbn.
  destruct (decimal c); [done|]. apply IH.
Qed.

Lemma re_search_none cs :
  re_search cs = None ↔ Forall (fun c => decimal c = None) cs.
Proof.
  induction cs as [|c cs IH]; cbn.
  - split; [constructor|done].
  - destruct (decimal c) eqn:E.
    + split; [done|]. intros [H _]%Forall_cons_1. congruence.
    + rewrite IH. split; [by constructor|]. by intros [_ H]%Forall_cons_1.
Qed.

Lemma run_length cs : length (run_of cs) ≤ length cs.
Proof.
  induction cs as [|c cs IH]; cbn; [done|].
  destruct (decimal c); cbn; lia.
Qed.

Lemma run_lower cs : Forall (fun d => (0 ≤ d)%Z) (run_of cs).
Proof.
  induction cs as [|c cs IH]; cbn; [constructor|].
  destruct (decimal c) as [d|] eqn:E; constructor; [|done].
  by eapply decimal_lower.
Qed.

Lemma re_search_some cs digits :
  re_search cs = Some digits →
  length digits ≤ length cs ∧ Forall (fun d => (0 ≤ d)%Z) digits.
Proof.
  induction cs as [|c cs IH]; cbn [Py.re_search]; [done|].
  destruct (decimal c) eqn:E.
  - intros [= <-].
    split; [apply (run_length (c :: cs))|apply (run_lower (c :: cs))].
  - intros H. destruct (IH H). cbn. split; [lia|done].
Qed.

Lemma base_ten_lower digits : ∀ n,
  (0 ≤ n)%Z → Forall (fun d => (0 ≤ d)%Z) digits →
  (0 ≤ foldl (fun n d => 10 * n + d) n digits)%Z.
Proof.
  induction digits as [|d digits IH]; intros n Hn; [done|].
  intros [Hd H]%Forall_cons_1. cbn. apply IH; [lia|done].
Qed.

(** The characters of an ASCII numeral, and its digits by value. *)
Lemma run_numeral t cs :
  Forall (fun c => (0x30 ≤ Py.byte c < 0x3A)%Z) (list_ascii_of_string t) →
  run_of ((Py.byte <$> list_ascii_of_string t) ++ cs)
  = ((fun c => Py.byte c - 0x30)%Z <$> list_ascii_of_string t) ++ run_of cs.
Proof.
  induction t as [|c t IH]; [done|].
  cbn [list_ascii_of_string]. intros [Hc Ht]%Forall_cons_1.
  cbn. rewrite decimal_ascii by done. by rewrite IH.
Qed.

Lemma run_stop rest :
  digit_first scripts rest = false → run_of (Py.code_points rest) = [].
Proof.
  unfold digit_first. destruct (Py.code_points rest) as [|c cs]; [done|].
  cbn. destruct (decimal c) eqn:E; [|done].
  intros H. apply bool_decide_eq_false in H. destruct H. by eexists.
Qed.

End Interpreter.

Lemma pretty_char_code d :
  (d < 10)%N → Py.byte (pretty_N_char d) = (0x30 + Z.of_N d)%Z.
Proof.
  intros Hd.
  assert (d = 0 ∨ d = 1 ∨ d = 2 ∨ d = 3 ∨ d = 4 ∨ d = 5 ∨ d = 6 ∨ d = 7
          ∨ d = 8 ∨ d = 9)%N as Hcases by lia.
  repeat (destruct Hcases as [->|Hcases]; [done|]). by subst.
Qed.

Lemma pretty_go_numeral x : ∀ s,
  Forall (fun c => (0x30 ≤ Py.byte c < 0x3A)%Z) (list_ascii_of_string s) →
  Forall (fun c => (0x30 ≤ Py.byte c < 0x3A)%Z)
         (list_ascii_of_string (pretty_N_go x s)).
Proof.
  induction (N.lt_wf_0 x) as [x _ IH]. intros s Hs.
  destruct (decide (x = 0%N)) as [->|Hx]; [by rewrite pretty_N_go_0|].
  rewrite pretty_N_go_step by lia. apply IH; [apply N.div_lt; lia|].
  cbn. constructor; [|done]. cbn beta.
  pose proof (N.mod_lt x 10 ltac:(lia)) as Hd. revert Hd.
  generalize (x `mod` 10)%N. intros d Hd. rewrite pretty_char_code; lia.
Qed.

Lemma pretty_go_value x : ∀ s,
  foldl (fun n d => 10 * n + d)%Z 0%Z
    ((fun c => Py.byte c - 0x30)%Z
       <$> list_ascii_of_string (pretty_N_go x s))
  = foldl (fun n d => 10 * n + d)%Z (Z.of_N x)
      ((fun c => Py.byte c - 0x30)%Z <$> list_ascii_of_string s).
Proof.
  induction (N.lt_wf_0 x) as [x _ IH]. intros s.
  destruct (decide (x = 0%N)) as [->|Hx]; [by rewrite pretty_N_go_0|].
  rewrite pretty_N_go_step by lia.
  rewrite IH by (apply N.div_lt; lia). cbn.
  rewrite pretty_char_code by (apply N.mod_lt; lia).
  f_equal. pose proof (N.div_mod x 10 ltac:(lia)). lia.
Qed.

Lemma pretty_go_length x : ∀ s,
  String.length s ≤ String.length (pretty_N_go x s).
Proof.
  induction (N.lt_wf_0 x) as [x _ IH]. intros s.
  destruct (decide (x = 0%N)) as [->|Hx]; [by rewrite pretty_N_go_0|].
  rewrite pretty_N_go_step by lia.
  etrans; [|apply IH; apply N.div_lt; lia]. cbn. lia.
Qed.

(** [str] prints a number that is not negative as a numeral of ASCII
    digits, one at least, which in base ten give the number back. *)
Lemma str_numeral n :
  (0 ≤ n)%Z →
  (∃ c t, str n = String c t) ∧
  Forall (fun c => (0x30 ≤ Py.byte c < 0x3A)%Z)
         (list_ascii_of_string (str n)) ∧
  foldl (fun n d => 10 * n + d)%Z 0%Z
    ((fun c => Py.byte c - 0x30)%Z <$> list_ascii_of_string (str n)) = n.
Proof.
  intros Hn. unfold str, pretty, pretty_Z.
  destruct n as [|p|p]; [|clear Hn|lia].
  - split; [by eexists _, _|]. split; [|done].
    repeat constructor; by vm_compute.
  - unfold pretty, pretty_positive, pretty, pretty_N.
    destruct (decide (N.pos p = 0%N)); [done|].
    split; [|split].
    + pose proof (pretty_go_length (N.pos p `div` 10)
                    (String (pretty_N_char (N.pos p `mod` 10)) "")) as H.
      rewrite <- pretty_N_go_step in H by lia.
      destruct (pretty_N_go (N.pos p) "") as [|c t]; [cbn in H; lia|].
      by eexists _, _.
    + apply pretty_go_numeral. constructor.
    + by rewrite pretty_go_value.
Qed.

Section Reading.
Variable scripts : list Z.
Variable max_str_digits : Z.

Abbreviation parse_index :=
  (Plugin.parse_index (Py.read_number scripts max_str_digits)).

(** X12.  A handler reads back the number a listing prints, whatever the
    interpreter's digits and limit: after a text in which [re.search] finds
    nothing, the numeral of [n >= 0], of no more digits than the limit and
    followed by anything that does not go on with a decimal digit, gives
    the index [n - 1]. *)
Theorem parse_index_reads_printed_number prefix n rest :
  (0 ≤ n)%Z →
  (max_str_digits ≤ 0 ∨ Z.of_nat (String.length (str n)) ≤ max_str_digits)%Z →
  Py.re_search scripts (Py.code_points prefix) = None →
  digit_first scripts rest = false →
  parse_index (prefix +:+ str n +:+ rest) = Some (n - 1)%Z.
Proof.
  intros Hn Hmax Hp Hr.
  destruct (str_numeral n Hn) as ((c & t & Hct) & Hdigits & Hvalue).
  assert (Forall (fun c => (Py.byte c < 0x80)%Z)
                 (list_ascii_of_string (str n))) as Hascii.
  { eapply Forall_impl; [exact Hdigits|]. cbn. lia. }
  assert (Py.byte c < 0x80)%Z as Hc.
  { rewrite Hct in Hascii. cbn in Hascii.
    by apply Forall_cons_1 in Hascii as [? _]. }
  unfold Plugin.parse_index, Py.read_number.
  assert (Py.code_points (prefix +:+ str n +:+ rest)
          = Py.code_points prefix
            ++ (Py.byte <$> list_ascii_of_string (str n))
            ++ Py.code_points rest) as ->.
  { rewrite <- code_points_ascii by done.
    rewrite Hct. change (String c t +:+ rest) with (String c (t +:+ rest)).
    by apply decode_app. }
  rewrite re_search_skip by done.
  assert (Py.re_search scripts
            ((Py.byte <$> list_ascii_of_string (str n))
               ++ Py.code_points rest)
          = Some ((fun c => Py.byte c - 0x30)%Z
                    <$> list_ascii_of_string (str n))) as ->.
  { trans (Some (Py.run scripts
                     ((Py.byte <$> list_ascii_of_string (str n))
                        ++ Py.code_points rest))).
    - rewrite Hct in Hdigits |- *. cbn in Hdigits |- *.
      apply Forall_cons_1 in Hdigits as [Hd _].
      by rewrite decimal_ascii.
    - rewrite run_numeral, run_stop by done. by rewrite app_nil_r. }
  unfold Py.int. rewrite length_fmap, Hvalue.
  replace (length (list_ascii_of_string (str n)))
    with (String.length (str n)).
  - by replace ((0 <? max_str_digits)
                && (max_str_digits <? Z.of_nat (String.length (str n))))%Z
      with false by lia.
  - generalize (str n). intros s. induction s; cbn; congruence.
Qed.

(** X13.  What the two failures of reading a number come down to, and how
    low an index can be: [re.search] finds nothing exactly in a message
    without a decimal digit; [int] raises only under a limit that the
    message exceeds in length; and an index that is read is [-1] at the
    least, so that no message addresses a song from the end of a list. *)
Theorem parse_index_none_or_at_least_minus_one message :
  (Py.read_number scripts max_str_digits message = NoMatch ↔
   Forall (fun c => Py.decimal scripts c = None) (Py.code_points message)) ∧
  (Py.read_number scripts max_str_digits message = ValueError →
   (0 < max_str_digits < Z.of_nat (length (Py.code_points message)))%Z) ∧
  (∀ index, parse_index message = Some index → (-1 ≤ index)%Z).
Proof.
  unfold Plugin.parse_index, Py.read_number, Py.int.
  rewrite <- re_search_none.
  destruct (Py.re_search scripts (Py.code_points message)) as [digits|] eqn:E.
  - destruct (re_search_some _ _ _ E) as [Hlen Hlow].
    destruct (_ && _) eqn:Hmax.
    + split; [done|]. split; [lia|done].
    + split; [done|]. split; [done|]. intros index [= <-].
      pose proof (base_ten_lower digits 0 ltac:(lia) Hlow). lia.
  - done.
Qed.

End Reading.

(** ** Songs, links and the network *)

Lemma get_current_song_elem r song :
  Room.get_current_song r = Some song → song ∈ playlist r.
Proof.
  unfold Room.get_current_song. destruct (_ && _); [|done].
  apply list_elem_of_lookup_2.
Qed.

Lemma next_song_elem r draw r' song :
  Room.next_song r draw = (r', Some song) →
  playlist r' = playlist r ∧ song ∈ playlist r.
Proof.
  intros H. destruct (next_song_frame r draw) as (Hp & _).
  rewrite H in Hp. cbn in Hp. split; [done|]. rewrite <- Hp.
  apply get_current_song_elem.
  destruct (playlist r) eqn:E.
  - unfold Room.next_song in H. by rewrite E in H.
  - pose proof (next_song_returns_current r draw ltac:(by rewrite E)) as Hc.
    by rewrite H in Hc.
Qed.

Lemma prev_song_elem r r' song :
  Room.prev_song r = (r', Some song) →
  playlist r' = playlist r ∧ song ∈ playlist r.
Proof.
  intros H. destruct (prev_song_frame r) as (Hp & _).
  rewrite H in Hp. cbn in Hp. split; [done|]. rewrite <- Hp.
  apply get_current_song_elem.
  destruct (playlist r) eqn:E.
  - unfold Room.prev_song in H. by rewrite E in H.
  - pose proof (prev_song_returns_current r ltac:(by rewrite E)) as Hc.
    by rewrite H in Hc.
Qed.

Lemma next_song_playlist r draw r' o :
  Room.next_song r draw = (r', o) → playlist r' = playlist r.
Proof.
  intros H. destruct (next_song_frame r draw) as (Hp & _). by rewrite H in Hp.
Qed.

Lemma prev_song_playlist r r' o :
  Room.prev_song r = (r', o) → playlist r' = playlist r.
Proof.
  intros H. destruct (prev_song_frame r) as (Hp & _). by rewrite H in Hp.
Qed.

Lemma remove_song_playlist r index r' o l :
  Room.remove_song r index = (r', o) → l ∈ playlist r' → l ∈ playlist r.
Proof.
  unfold Room.remove_song. destruct (_ && _); intros [= <- _]; [|done].
  cbn. intros (i & Hi)%list_elem_of_lookup_1.
  rewrite list_lookup_delete in Hi.
  case_decide; by eapply list_elem_of_lookup_2.
Qed.

Lemma remove_member_playlist r u : playlist (Room.remove_member r u).1 = playlist r.
Proof. unfold Room.remove_member. by destruct (dict_mem _ _). Qed.

Ltac contained :=
  cbn [playlist with_playlist with_current_index with_is_playing
       with_members with_play_mode Room.add_member] in *;
  first
    [ done
    | by rewrite remove_member_playlist in *
    | match goal with
      | H : Room.next_song _ _ = (?r, _), Hl : _ ∈ playlist ?r |- _ =>
          by rewrite (next_song_playlist _ _ _ _ H) in Hl
      | H : Room.prev_song _ = (?r, _), Hl : _ ∈ playlist ?r |- _ =>
          by rewrite (prev_song_playlist _ _ _ H) in Hl
      | H : Room.remove_song _ _ = (?r, _), Hl : _ ∈ playlist ?r |- _ =>
          by apply (remove_song_playlist _ _ _ _ _ H)
      | Hl : _ ∈ [] |- _ => by apply elem_of_nil in Hl
      end ].

Ltac no_new :=
  let k := fresh "k" in let r := fresh "r" in let l := fresh "l" in
  let Hk := fresh "Hk" in let Hl := fresh "Hl" in
  intros k r l Hk Hl;
  cbn [rooms with_rooms with_user_room_map with_search_results] in Hk;
  first
    [ by eauto
    | rewrite lookup_insert in Hk; case_decide;
      [ injection Hk as <-; subst k;
        first [ contained | eexists; split; [eassumption|contained] ]
      | by eauto ]
    | rewrite lookup_delete in Hk; case_decide; [done|by eauto] ].

Section Resolved.
Variable qq_stream netease_stream : nat → string → option string.
Variable strip_command : string → string → string.
Variable read_number : string → Number.

Abbreviation parse_index := (Plugin.parse_index read_number).

Abbreviation handle :=
  (Plugin.handle qq_stream netease_stream strip_command read_number).
Abbreviation run :=
  (Plugin.run qq_stream netease_stream strip_command read_number).
Abbreviation ensure_url := (Plugin.ensure_url qq_stream netease_stream).
Abbreviation fetch_url := (Plugin.fetch_url qq_stream netease_stream).

(** What every command but a search or a selection does: it reaches a state
    with the same songs and pending results and no new song in any room,
    and then at most looks up the link of a song of some playlist. *)
Lemma handle_effect st c e :
  (∀ qq netease, c ≠ SearchSong qq netease) → c ≠ SelectSong →
  ∃ X, store X = store st ∧ url_requests X = url_requests st ∧
       search_results X = search_results st ∧ no_new_songs st X ∧
       ((handle st (c, e)).1 = X ∨
        ∃ song k r, rooms X !! k = Some r ∧ song ∈ playlist r ∧
                    (handle st (c, e)).1 = (ensure_url X song).1).
Proof.
  intros Hsearch Hselect.
  destruct c; try done; try (by destruct (Hsearch qq netease));
    open_handlers; unfold Plugin.put_room; repeat case_match; cbn [fst snd].
  all: first
    [ match goal with
      | H : Plugin.ensure_url _ _ ?X0 ?song = (?s, _) |- _ =>
          exists X0; split; [done|]; split; [done|]; split; [done|];
          split; [no_new|]; right;
          match X0 with
          | with_rooms _ (<[?key := ?r2]> _) =>
              exists song, key, r2; split; [cbn; apply lookup_insert_eq|];
              split; [|by rewrite H]
          end
      end
    | match goal with
      | |- ∃ X, _ ∧ _ ∧ _ ∧ _ ∧ (?S = X ∨ _) =>
          exists S; split; [done|]; split; [done|]; split; [done|];
          split; [no_new|by left]
      end ].
  all: subst;
    first
      [ by apply get_current_song_elem
      | match goal with
        | H : Room.next_song _ _ = (_, Some _) |- _ =>
            destruct (next_song_elem _ _ _ _ H) as [Hp ?]; by rewrite Hp
        | H : Room.prev_song _ = (_, Some _) |- _ =>
            destruct (prev_song_elem _ _ _ H) as [Hp ?]; by rewrite Hp
        end ].
Qed.

Lemma search_song_effect st e qq netease :
  (Plugin.search_song strip_command st e qq netease).1 = st ∨
  ∃ found,
    Forall (fun s => url s = "") found ∧
    (Plugin.search_song strip_command st e qq netease).1
    = mkState (rooms st) (user_room_map st)
              (<[caller_key e := seq (length (store st)) (length found)]>
                 (search_results st))
              (store st ++ found) (url_requests st).
Proof.
  unfold Plugin.search_song.
  destruct (String.eqb _ _); [by left|].
  destruct (Plugin._get_user_room _ _ _); [|by left].
  destruct (search qq netease) as [|s found] eqn:E; [by left|].
  right. exists (s :: found). split; [|done]. rewrite <- E.
  unfold search. destruct qq; apply Forall_fmap, Forall_forall; by intros.
Qed.

Lemma select_song_effect st e :
  (Plugin.select_song qq_stream netease_stream read_number st e).1 = st ∨
  ∃ r songs l,
    rooms st !! room_key e = Some r ∧
    search_results st !! caller_key e = Some songs ∧ l ∈ songs ∧
    (Plugin.select_song qq_stream netease_stream read_number st e).1
    = with_search_results
        (Plugin.put_room (fetch_url st l).1 (Plugin.group_of e)
           (Room.add_song r l))
        (delete (caller_key e) (search_results st)).
Proof.
  unfold Plugin.select_song, Plugin._get_user_room.
  destruct (rooms st !! _) as [r|] eqn:Hr; [|by left].
  destruct (search_results st !! _) as [songs|] eqn:Hs; [|by left].
  destruct (parse_index _) as [index|]; [|by left].
  destruct (_ || _); [by left|].
  destruct (songs !! _) as [l|] eqn:Hl; [|by left].
  right. exists r, songs, l. split; [done|]. split; [done|].
  split; [by eapply list_elem_of_lookup_2|].
  cbn [fst]. unfold Plugin.fetch_url. by destruct (store st !! l).
Qed.

Hypothesis qq_links : ∀ n id, qq_stream n id ≠ Some "".
Hypothesis netease_links : ∀ n id, netease_stream n id ≠ Some "".

Lemma get_song_url_nonempty n s :
  Plugin.get_song_url qq_stream netease_stream n s ≠ "".
Proof.
  unfold Plugin.get_song_url, Plugin._get_qq_song_url,
    Plugin._get_netease_song_url.
  destruct (String.eqb _ _).
  - destruct (qq_stream n _) as [link|] eqn:E; [|done].
    intros ->. by destruct (qq_links n (song_id s)).
  - destruct (netease_stream n _) as [link|] eqn:E; [|done].
    intros ->. by destruct (netease_links n (song_id s)).
Qed.

(** Outside searches and selections a sound state keeps its songs, its
    links and its pending results, and asks the network nothing. *)
Lemma handle_quiet st c e :
  sound st →
  (∀ qq netease, c ≠ SearchSong qq netease) → c ≠ SelectSong →
  store (handle st (c, e)).1 = store st ∧
  url_requests (handle st (c, e)).1 = url_requests st ∧
  search_results (handle st (c, e)).1 = search_results st ∧
  no_new_songs st (handle st (c, e)).1.
Proof.
  intros (_ & _ & S3) Hsearch Hselect.
  destruct (handle_effect st c e Hsearch Hselect)
    as (X & Hst & Hreq & Hsr & Hnew & [->|(song & k & r & Hr & Hsong & ->)]);
    [done|].
  destruct (Hnew k r song Hr Hsong) as (r0 & Hr0 & Hsong0).
  destruct (S3 k r0 song Hr0 Hsong0) as (s & Hs & Hu).
  rewrite <- Hst in Hs.
  by rewrite (ensure_url_cached qq_stream netease_stream X song s Hs Hu).
Qed.

Lemma sound_quiet st st' :
  sound st → store st' = store st →
  search_results st' = search_results st → no_new_songs st st' → sound st'.
Proof.
  intros (S1 & S2 & S3) Hst Hsr Hnew. split; [|split].
  - intros key songs l. rewrite Hsr, Hst. apply S1.
  - intros key1 key2 songs1 songs2 l. rewrite Hsr. apply S2.
  - intros k r l Hr Hl. rewrite Hst.
    destruct (Hnew k r l Hr Hl) as (r0 & Hr0 & Hl0). by eapply S3.
Qed.

Lemma sound_search st e qq netease :
  sound st → sound (Plugin.search_song strip_command st e qq netease).1.
Proof.
  intros (S1 & S2 & S3).
  destruct (search_song_effect st e qq netease) as [->|(found & Hf & ->)];
    [done|].
  assert (∀ l, l ∈ seq (length (store st)) (length found) →
               length (store st) ≤ l ∧
               ∃ s, (store st ++ found) !! l = Some s ∧ url s = "") as Hnew.
  { intros l (i & Hi)%list_elem_of_lookup_1.
    apply lookup_seq in Hi as [-> Hi]. split; [lia|].
    destruct (lookup_lt_is_Some_2 found i Hi) as [s Hs].
    exists s. split.
    - rewrite lookup_app_r by lia. by replace (_ + i - _) with i by lia.
    - rewrite Forall_forall in Hf. apply Hf. by eapply list_elem_of_lookup_2. }
  assert (∀ key songs l, search_results st !! key = Some songs → l ∈ songs →
                         l < length (store st)) as Hold.
  { intros key songs l Hk Hl. destruct (S1 key songs l Hk Hl) as (s & Hs & _).
    by apply lookup_lt_Some in Hs. }
  split; [|split];
    unfold pending_unresolved, pending_apart, playlists_resolved;
    cbn [search_results store rooms].
  - intros key songs l. rewrite lookup_insert. case_decide.
    + intros [= <-] Hl. by apply Hnew.
    + intros Hk Hl. destruct (S1 key songs l Hk Hl) as (s & Hs & Hu).
      exists s. split; [by apply lookup_app_l_Some|done].
  - intros key1 key2 songs1 songs2 l. rewrite !lookup_insert.
    repeat case_decide; try congruence.
    + intros [= <-] H2 Hl1 Hl2. apply Hnew in Hl1 as [Hl1 _].
      pose proof (Hold _ _ _ H2 Hl2). lia.
    + intros H1 [= <-] Hl1 Hl2. apply Hnew in Hl2 as [Hl2 _].
      pose proof (Hold _ _ _ H1 Hl1). lia.
    + apply S2.
  - intros k r l Hr Hl. destruct (S3 k r l Hr Hl) as (s & Hs & Hu).
    exists s. split; [by apply lookup_app_l_Some|done].
Qed.

Lemma sound_select st e :
  sound st → sound (Plugin.select_song qq_stream netease_stream read_number st e).1.
Proof.
  intros (S1 & S2 & S3).
  destruct (select_song_effect st e)
    as [->|(r & songs & l & Hr & Hs & Hl & ->)]; [done|].
  destruct (S1 _ _ _ Hs Hl) as (s & Hsl & Hul).
  assert (store (fetch_url st l).1
          = <[l := with_url s
                     (Plugin.get_song_url qq_stream netease_stream
                        (length (url_requests st)) s)]> (store st)) as Hst.
  { unfold Plugin.fetch_url. by rewrite Hsl. }
  assert (∀ l' s', l' ≠ l → store st !! l' = Some s' →
                   store (fetch_url st l).1 !! l' = Some s') as Hkeep.
  { intros l' s' Hne Hs'. rewrite Hst. by rewrite list_lookup_insert_ne. }
  split; [|split];
    unfold pending_unresolved, pending_apart, playlists_resolved;
    cbn [search_results store rooms with_search_results Plugin.put_room
         with_rooms];
    rewrite ?(proj2 (proj2 (fetch_url_frame _ _ _ _))),
            ?(proj1 (fetch_url_frame _ _ _ _)).
  - intros key songs' l' Hk Hl'. apply lookup_delete_Some in Hk as [Hne Hk].
    destruct (S1 _ _ _ Hk Hl') as (s' & Hs' & Hu'). exists s'.
    split; [|done]. apply Hkeep; [|done]. intros ->.
    apply Hne. by eapply S2.
  - intros key1 key2 songs1 songs2 l'.
    intros [_ H1]%lookup_delete_Some [_ H2]%lookup_delete_Some. by eapply S2.
  - intros k r' l' Hk Hl'.
    assert (l' = l ∨ ∃ r0, rooms st !! k = Some r0 ∧ l' ∈ playlist r0)
      as [->|(r0 & Hr0 & Hl0)].
    { rewrite lookup_insert in Hk. case_decide.
      - injection Hk as <-. subst k. cbn in Hl'.
        apply elem_of_app in Hl' as [Hl'|Hl'%list_elem_of_singleton]; eauto.
      - eauto. }
    + eexists. split.
      * rewrite Hst. apply list_lookup_insert_eq. by apply lookup_lt_Some in Hsl.
      * cbn. apply get_song_url_nonempty.
    + destruct (S3 _ _ _ Hr0 Hl0) as (s' & Hs' & Hu'). exists s'.
      split; [|done]. apply Hkeep; [|done]. intros ->. congruence.
Qed.

Lemma sound_handle st c e : sound st → sound (handle st (c, e)).1.
Proof.
  intros Hs.
  destruct c;
    try (by apply sound_search); try (by apply sound_select);
    match goal with
    | |- sound (Plugin.handle _ _ _ _ st (?c, e)).1 =>
        destruct (handle_quiet st c e Hs) as (H1 & _ & H2 & H3);
        [done|done|]; by eapply sound_quiet
    end.
Qed.

Lemma sound_run cmds : sound (run init cmds).
Proof.
  induction cmds as [|[c e] cmds IH] using rev_ind.
  - split; [|split]; intros ?; cbn; intros; by simplify_map_eq.
  - unfold Plugin.run. rewrite foldl_app. cbn [foldl]. by apply sound_handle.
Qed.

(** X14.  When the providers never hand out an empty link, in every reachable
    state each song of a playlist has its link, and each song of a pending
    search result has none. *)
Theorem songs_have_links_once_selected cmds :
  (∀ k r l, rooms (run init cmds) !! k = Some r → l ∈ playlist r →
            ∃ s, store (run init cmds) !! l = Some s ∧ url s ≠ "") ∧
  (∀ key songs l, search_results (run init cmds) !! key = Some songs →
                  l ∈ songs →
                  ∃ s, store (run init cmds) !! l = Some s ∧ url s = "").
Proof. destruct (sound_run cmds) as (S1 & _ & S3). by split. Qed.

(** X15.  When the providers never hand out an empty link, in a reachable
    state no command but a selection calls [get_song_url], and a selection
    calls it at most once, for a song of the caller's pending results. *)
Theorem only_selection_asks_the_network cmds c e :
  (c ≠ SelectSong →
   url_requests (handle (run init cmds) (c, e)).1
   = url_requests (run init cmds)) ∧
  (c = SelectSong →
   url_requests (handle (run init cmds) (c, e)).1
   = url_requests (run init cmds) ∨
   ∃ songs l,
     search_results (run init cmds) !! caller_key e = Some songs ∧
     l ∈ songs ∧
     url_requests (handle (run init cmds) (c, e)).1
     = url_requests (run init cmds) ++ [l]).
Proof.
  pose proof (sound_run cmds) as Hs. split.
  - intros Hc. destruct c; try done;
      try (by apply (handle_quiet _ _ e Hs)).
    unfold Plugin.handle. cbn [fst snd].
    by destruct (search_song_effect (run init cmds) e qq netease)
      as [->|(found & _ & ->)].
  - intros ->. unfold Plugin.handle. cbn [fst snd].
    destruct (select_song_effect (run init cmds) e)
      as [->|(r & songs & l & Hr & Hsg & Hl & ->)]; [by left|].
    right. exists songs, l. split; [done|]. split; [done|].
    destruct Hs as (S1 & _). destruct (S1 _ _ _ Hsg Hl) as (s & Hsl & _).
    cbn. unfold Plugin.fetch_url. by rewrite Hsl.
Qed.

(** X16.  When the providers never hand out an empty link, in a reachable
    state no command changes a song that has its link. *)
Theorem links_are_never_overwritten cmds c e l s :
  store (run init cmds) !! l = Some s → url s ≠ "" →
  store (handle (run init cmds) (c, e)).1 !! l = Some s.
Proof.
  intros Hl Hu. pose proof (sound_run cmds) as Hs.
  destruct c;
    try match goal with
    | |- store (Plugin.handle _ _ _ _ ?st (?c, e)).1 !! _ = _ =>
        destruct (handle_quiet st c e Hs) as [-> _]; done
    end;
    unfold Plugin.handle; cbn [fst snd].
  - destruct (search_song_effect (run init cmds) e qq netease)
      as [->|(found & _ & ->)]; [done|].
    cbn. by apply lookup_app_l_Some.
  - destruct (select_song_effect (run init cmds) e)
      as [->|(r & songs & l0 & Hr & Hsg & Hl0 & ->)]; [done|].
    destruct Hs as (S1 & _). destruct (S1 _ _ _ Hsg Hl0) as (s0 & Hs0 & Hu0).
    cbn. unfold Plugin.fetch_url. rewrite Hs0. cbn.
    rewrite list_lookup_insert_ne; [done|]. intros ->. congruence.
Qed.
End Resolved.

(** ** Search, resolution and the remaining handlers *)

(** X17.  A search returns the first provider's hits whenever it has any and
    the second provider's only otherwise, never a mix; it is empty only when
    both are, and every song it returns is unresolved. *)
Theorem search_first_provider_wins qq netease :
  (qq ≠ [] → search qq netease = qq_song <$> qq) ∧
  (qq = [] → search qq netease = netease_song <$> netease) ∧
  (search qq netease = [] ↔ qq = [] ∧ netease = []) ∧
  Forall (fun s => url s = "") (search qq netease) ∧
  (Forall (fun s => source s = "qq") (search qq netease) ∨
   Forall (fun s => source s = "netease") (search qq netease)) ∧
  (length (search qq netease) = length qq ∨
   length (search qq netease) = length netease).
Proof.
  unfold search. destruct qq as [|t qq].
  - split; [done|]. split; [done|]. split.
    { split; [intros H%fmap_nil_inv; by split|by intros [_ ->]]. }
    split; [apply Forall_fmap, Forall_forall; by intros|].
    split; [right; apply Forall_fmap, Forall_forall; by intros|].
    right. apply length_fmap.
  - split; [done|]. split; [done|]. split.
    { split; [done|]. by intros [? _]. }
    split; [apply Forall_fmap, Forall_forall; by intros|].
    split; [left; apply Forall_fmap, Forall_forall; by intros|].
    left. apply length_fmap.
Qed.

Section Rest.
Variable qq_stream netease_stream : nat → string → option string.
Variable strip_command : string → string → string.
Variable read_number : string → Number.

Abbreviation parse_index := (Plugin.parse_index read_number).

Abbreviation handle :=
  (Plugin.handle qq_stream netease_stream strip_command read_number).
Abbreviation ensure_url := (Plugin.ensure_url qq_stream netease_stream).
Abbreviation fetch_url := (Plugin.fetch_url qq_stream netease_stream).
Abbreviation get_song_url := (Plugin.get_song_url qq_stream netease_stream).

(** X18.  Resolution goes to the provider the song's tag names, anything but
    the QQ tag meaning NetEase, and when that provider gives no link the
    answer is the song's page there, whatever the request. *)
Theorem get_song_url_falls_back_to_page n s :
  (source s = "qq" →
   get_song_url n s
   = default ("https://y.qq.com/n/ryqq/songDetail/" +:+ song_id s)
             (qq_stream n (song_id s))) ∧
  (source s ≠ "qq" →
   get_song_url n s
   = default ("https://music.163.com/song?id=" +:+ song_id s)
             (netease_stream n (song_id s))) ∧
  (get_song_url n s = "" →
   qq_stream n (song_id s) = Some "" ∨
   netease_stream n (song_id s) = Some "").
Proof.
  unfold Plugin.get_song_url, Plugin._get_qq_song_url,
    Plugin._get_netease_song_url.
  split; [|split].
  - intros ->. cbn. by destruct (qq_stream _ _).
  - intros H%String.eqb_neq. rewrite H. by destruct (netease_stream _ _).
  - destruct (String.eqb _ _).
    + destruct (qq_stream _ _); [intros ->; by left|done].
    + destruct (netease_stream _ _); [intros ->; by right|done].
Qed.

Lemma fetch_url_meta st l0 l s :
  store st !! l = Some s →
  ∃ u, store (fetch_url st l0).1 !! l = Some (with_url s u).
Proof.
  intros Hs. unfold Plugin.fetch_url.
  destruct (store st !! l0) as [s0|] eqn:E; cbn.
  - destruct (decide (l0 = l)) as [->|Hne].
    + rewrite list_lookup_insert_eq by (by apply lookup_lt_Some in Hs).
      eexists. do 2 f_equal. congruence.
    + rewrite list_lookup_insert_ne by done. exists (url s). by destruct s.
  - exists (url s). by destruct s.
Qed.

Lemma ensure_url_meta st l0 l s :
  store st !! l = Some s →
  ∃ u, store (ensure_url st l0).1 !! l = Some (with_url s u).
Proof.
  intros Hs. unfold Plugin.ensure_url.
  destruct (store st !! l0) as [s0|]; [destruct (String.eqb _ _)|];
    first [by apply fetch_url_meta | exists (url s); by destruct s].
Qed.

(** X19.  No command deletes a song object or rewrites anything of it but its
    link. *)
Theorem song_metadata_is_immutable st c e l s :
  store st !! l = Some s →
  ∃ u, store (handle st (c, e)).1 !! l = Some (with_url s u).
Proof.
  intros Hs.
  assert (∃ u, store st !! l = Some (with_url s u)) as Hsame.
  { exists (url s). by destruct s. }
  destruct c; open_handlers; unfold Plugin.put_room;
    repeat case_match; cbn [fst snd]; try done.
  all: try match goal with
    | H : Plugin.ensure_url _ _ ?X ?l0 = (?s', _) |- _ =>
        replace s' with (ensure_url X l0).1 by (by rewrite H);
        by apply ensure_url_meta
    end.
  - cbn. exists (url s). rewrite lookup_app_l_Some with (x := s); [|done].
    by destruct s.
  - cbn. by apply fetch_url_meta.
Qed.

(** X20.  [skip_to] moves the cursor to the index the message names when that
    is an index of the playlist, shows the song there and keeps the playing
    flag; when no number is read, or one out of range, it changes nothing.
    This holds whatever [re.search] and [int] make of a message. *)
Theorem skip_to_moves_or_refuses st e r :
  rooms st !! room_key e = Some r →
  (parse_index (message_str e) = None →
   Plugin.skip_to qq_stream netease_stream read_number st e
   = (st, [BadNumber "/切歌 3"])) ∧
  (∀ index, parse_index (message_str e) = Some index →
            ¬ (0 ≤ index < plen r)%Z →
            Plugin.skip_to qq_stream netease_stream read_number st e
            = (st, [IndexOutOfRange])) ∧
  (∀ index, parse_index (message_str e) = Some index →
            (0 ≤ index < plen r)%Z →
            ∃ song link,
              playlist r !! Z.to_nat index = Some song ∧
              (Plugin.skip_to qq_stream netease_stream read_number st e).2
              = [SkippedTo index song link] ∧
              rooms (Plugin.skip_to qq_stream netease_stream read_number st e).1
                !! room_key e = Some (with_current_index r index) ∧
              Room.get_current_song (with_current_index r index)
              = Some song).
Proof.
  intros Hr. unfold Plugin.skip_to, Plugin._get_user_room. rewrite Hr.
  split; [|split].
  - by intros ->.
  - intros index -> Hi.
    by replace ((index <? 0) || (plen r <=? index))%Z with true by lia.
  - intros index -> Hi.
    replace ((index <? 0) || (plen r <=? index))%Z with false by lia.
    cbv beta iota zeta.
    destruct (get_current_song_at (with_current_index r index))
      as [Hc [song Hsong]]; [done|].
    exists song,
      (ensure_url
         (Plugin.put_room st (Plugin.group_of e) (with_current_index r index))
         song).2.
    rewrite Hsong. rewrite Hc in Hsong. cbn in Hsong.
    destruct (ensure_url _ song) as [st2 link] eqn:E.
    split; [done|]. split; [done|]. split; [|done].
    cbn [fst]. destruct (ensure_url_eq_frame _ _ _ _ _ _ E) as (-> & _).
    cbn. apply lookup_insert_eq.
Qed.

(** X21.  [clear_playlist] is refused to anyone but the owner; for the owner
    it empties the playlist, unsets the cursor and the playing flag and
    keeps the song objects; the room then has no current song and refuses
    to play or to move on. *)
Theorem clear_playlist_resets_room st e r :
  rooms st !! room_key e = Some r →
  (get_sender_id e ≠ owner_id r →
   Plugin.clear_playlist st e = (st, [OnlyOwnerClears])) ∧
  (get_sender_id e = owner_id r →
   Plugin.clear_playlist st e
   = (Plugin.put_room st (Plugin.group_of e)
        (mkRoom (room_id r) (owner_id r) (owner_name r) (group_id r) []
                (-1) (members r) false (create_time r) (play_mode r)),
      [Cleared]) ∧
   store (Plugin.clear_playlist st e).1 = store st ∧
   ∀ e2 draw,
     Plugin.group_of e2 = Plugin.group_of e →
     handle (Plugin.clear_playlist st e).1 (ShowPlaylist, e2)
     = ((Plugin.clear_playlist st e).1, [PlaylistView [] (-1)]) ∧
     handle (Plugin.clear_playlist st e).1 (Play, e2)
     = ((Plugin.clear_playlist st e).1, [PlaylistEmptyAddFirst]) ∧
     handle (Plugin.clear_playlist st e).1 (NextSong draw, e2)
     = ((Plugin.clear_playlist st e).1, [PlaylistEmpty]) ∧
     handle (Plugin.clear_playlist st e).1 (PrevSong, e2)
     = ((Plugin.clear_playlist st e).1, [PlaylistEmpty])).
Proof.
  intros Hr. unfold Plugin.clear_playlist, Plugin._get_user_room. rewrite Hr.
  split.
  - intros H%String.eqb_neq. by rewrite H.
  - intros ->. rewrite String.eqb_refl. cbn [negb fst].
    split; [done|]. split; [done|]. intros e2 draw Hg.
    unfold Plugin.handle, Plugin.show_playlist, Plugin.play,
      Plugin.next_song, Plugin.prev_song, Plugin._get_user_room.
    cbn [fst snd]. rewrite Hg. cbn [rooms Plugin.put_room with_rooms].
    by rewrite lookup_insert_eq.
Qed.

(** X22.  [set_play_mode] sets the mode on one of its four words and changes
    nothing else of the room; on any other text it changes nothing and
    reports the mode the room has, without an error mark. *)
Theorem set_play_mode_switches_or_reports st e r :
  rooms st !! room_key e = Some r →
  (strip_command "播放模式" (message_str e) ∈ ["顺序"; "sequence"] →
   Plugin.set_play_mode strip_command st e
   = (Plugin.put_room st (Plugin.group_of e) (with_play_mode r "sequence"),
      [ModeSequence])) ∧
  (strip_command "播放模式" (message_str e) ∈ ["随机"; "random"] →
   Plugin.set_play_mode strip_command st e
   = (Plugin.put_room st (Plugin.group_of e) (with_play_mode r "random"),
      [ModeRandom])) ∧
  (strip_command "播放模式" (message_str e)
     ∉ ["顺序"; "sequence"; "随机"; "random"] →
   Plugin.set_play_mode strip_command st e
   = (st, [ModeQuery (play_mode r)]) ∧
   is_error (ModeQuery (play_mode r)) = false).
Proof.
  intros Hr. unfold Plugin.set_play_mode, Plugin._get_user_room. rewrite Hr.
  split; [|split].
  - intros H. repeat (apply elem_of_cons in H as [->|H]); try done.
    by apply elem_of_nil in H.
  - intros H. repeat (apply elem_of_cons in H as [->|H]); try done.
    by apply elem_of_nil in H.
  - intros H. split; [|done].
    assert (∀ w, w ∈ ["顺序"; "sequence"; "随机"; "random"] →
                 String.eqb (strip_command "播放模式" (message_str e)) w
                 = false) as Hf.
    { intros w Hw. apply String.eqb_neq. intros E. apply H. by rewrite E. }
    by rewrite !Hf by set_solver.
Qed.
End Rest.

(** ** Durations as shown *)

Lemma string_length_app a b :
  String.length (a +:+ b) = String.length a + String.length b.
Proof. induction a as [|c a IH]; simpl; [done|]. by rewrite IH. Qed.

Lemma string_app_inj_length a : ∀ a' b b',
  String.length a = String.length a' →
  a +:+ b = a' +:+ b' → a = a' ∧ b = b'.
Proof.
  induction a as [|c a IH]; intros [|c' a'] b b' Hlen; simpl in *; try done.
  intros [= -> H]. destruct (IH a' b b') as [-> ->]; [lia|done|done].
Qed.

Lemma two_digits_spec n :
  (0 ≤ n < 60)%Z →
  String.length (two_digits n) = 2 ∧ numeral_value (two_digits n) 0 = n ∧
  Forall (fun c => is_Some (digit_value c))
         (list_ascii_of_string (two_digits n)).
Proof.
  intros Hn.
  assert (forallb
            (fun n => Nat.eqb (String.length (two_digits n)) 2 &&
                      Z.eqb (numeral_value (two_digits n) 0) n &&
                      forallb (fun c => bool_decide (is_Some (digit_value c)))
                              (list_ascii_of_string (two_digits n)))
            (seqZ 0 60) = true) as H by (vm_compute; reflexivity).
  rewrite forallb_forall in H. specialize (H n).
  rewrite <- list_elem_of_In, elem_of_seqZ in H.
  apply andb_true_iff in H as [H12 H3]; [|lia].
  apply andb_true_iff in H12 as [H1 H2].
  apply Nat.eqb_eq in H1. apply Z.eqb_eq in H2.
  split; [done|]. split; [done|].
  apply Forall_forall. intros c Hc. rewrite forallb_forall in H3.
  apply list_elem_of_In in Hc. specialize (H3 c Hc).
  by apply bool_decide_eq_true in H3.
Qed.

(** X23.  A duration is shown as its minutes, a colon and its seconds in two
    digits, a leading zero where needed, the seconds below sixty also for a
    negative duration, and two different durations are never shown alike. *)
Theorem format_duration_is_faithful :
  (∀ seconds,
     ∃ ss, _format_duration seconds = str (seconds / 60) +:+ ":" +:+ ss ∧
           String.length ss = 2 ∧
           numeral_value ss 0 = (seconds mod 60)%Z ∧
           Forall (fun c => is_Some (digit_value c))
                  (list_ascii_of_string ss) ∧
           (0 ≤ seconds mod 60 < 60)%Z) ∧
  (∀ a b, _format_duration a = _format_duration b → a = b).
Proof.
  split.
  - intros seconds. exists (two_digits (seconds mod 60)).
    pose proof (Z.mod_pos_bound seconds 60 ltac:(lia)) as Hb.
    destruct (two_digits_spec _ Hb) as (? & ? & ?). done.
  - intros a b H. unfold _format_duration in H. cbv zeta in H.
    pose proof (Z.mod_pos_bound a 60 ltac:(lia)) as Ha.
    pose proof (Z.mod_pos_bound b 60 ltac:(lia)) as Hb.
    destruct (two_digits_spec _ Ha) as (La & Ra & _).
    destruct (two_digits_spec _ Hb) as (Lb & Rb & _).
    apply string_app_inj_length in H as [Hm Hs].
    + apply (inj pretty) in Hm.
      apply string_app_inj_length in Hs as [_ Hs]; [|done].
      rewrite <- Ra, <- Rb, Hs in *.
      rewrite (Z.div_mod a 60), (Z.div_mod b 60) by lia.
      rewrite Hm. f_equal. congruence.
    + apply (f_equal String.length) in H. rewrite !string_length_app in H.
      rewrite La, Lb in H. lia.
Qed.

(** ** From a search to the playlist *)

Section SearchSelect.
Variable qq_stream netease_stream : nat → string → option string.
Variable strip_command : string → string → string.
Variable read_number : string → Number.

Abbreviation parse_index := (Plugin.parse_index read_number).

Abbreviation get_song_url := (Plugin.get_song_url qq_stream netease_stream).

Lemma search_song_found st e qq netease r :
  rooms st !! room_key e = Some r →
  strip_command "点歌" (message_str e) ≠ "" →
  search qq netease ≠ [] →
  (Plugin.search_song strip_command st e qq netease).1
  = mkState (rooms st) (user_room_map st)
      (<[caller_key e :=
         seq (length (store st)) (length (search qq netease))]>
         (search_results st))
      (store st ++ search qq netease) (url_requests st).
Proof.
  intros Hr Hk%String.eqb_neq Hf.
  unfold Plugin.search_song, Plugin._get_user_room. rewrite Hk, Hr.
  by destruct (search qq netease).
Qed.

(** X24.  Pending results belong to the caller who searched: after a search
    that finds songs, the searcher's pending list is that search's hits in
    order, replacing any earlier list, and a selection by another caller
    who has searched nothing is refused and changes nothing. *)
Theorem pending_results_belong_to_their_caller st e qq netease r :
  rooms st !! room_key e = Some r →
  strip_command "点歌" (message_str e) ≠ "" →
  search qq netease ≠ [] →
  (∃ songs,
     search_results (Plugin.search_song strip_command st e qq netease).1
       !! caller_key e = Some songs ∧
     length songs = length (search qq netease) ∧
     ∀ i s, search qq netease !! i = Some s →
            ∃ l, songs !! i = Some l ∧
                 store (Plugin.search_song strip_command st e qq netease).1
                   !! l = Some s) ∧
  (∀ e2, Plugin.group_of e2 = Plugin.group_of e →
         caller_key e2 ≠ caller_key e →
         search_results st !! caller_key e2 = None →
         Plugin.select_song qq_stream netease_stream read_number
           (Plugin.search_song strip_command st e qq netease).1 e2
         = ((Plugin.search_song strip_command st e qq netease).1,
            [NoPendingSearch])).
Proof.
  intros Hr Hk Hf. rewrite (search_song_found st e qq netease r Hr Hk Hf).
  cbn [search_results store rooms]. split.
  - eexists. split; [apply lookup_insert_eq|]. split; [apply length_seq|].
    intros i s Hi. exists (length (store st) + i).
    split; [apply lookup_seq_lt; by apply lookup_lt_Some in Hi|].
    rewrite lookup_app_r by lia.
    by replace (length (store st) + i - length (store st)) with i by lia.
  - intros e2 Hg Hne Hnone.
    unfold Plugin.select_song, Plugin._get_user_room.
    cbn [rooms search_results].
    replace (room_key e2) with (room_key e) by (by rewrite Hg).
    rewrite Hr, lookup_insert_ne by done. by rewrite Hnone.
Qed.

(** X25.  Selecting number [i + 1] after one's search puts hit [i] of that
    search at the end of the playlist, with the link resolution gave for
    it, sends one request, and leaves the cursor and the playing flag.  The
    number is the one that [re.search] and [int] read off the message,
    whatever they make of it. *)
Theorem search_then_select_adds_the_hit st e qq netease r e2 i s :
  rooms st !! room_key e = Some r →
  strip_command "点歌" (message_str e) ≠ "" →
  search qq netease !! Z.to_nat i = Some s → (0 ≤ i)%Z →
  get_sender_id e2 = get_sender_id e →
  Plugin.group_of e2 = Plugin.group_of e →
  parse_index (message_str e2) = Some i →
  let st1 := (Plugin.search_song strip_command st e qq netease).1 in
  let st2 := (Plugin.select_song qq_stream netease_stream read_number st1 e2).1 in
  let l := length (store st) + Z.to_nat i in
  rooms st2 !! room_key e = Some (Room.add_song r l) ∧
  store st2 !! l
  = Some (with_url s (get_song_url (length (url_requests st)) s)) ∧
  url_requests st2 = url_requests st ++ [l] ∧
  search_results st2 !! caller_key e = None ∧
  (Plugin.select_song qq_stream netease_stream read_number st1 e2).2
  = [SongAdded (Plugin.name_of e2) l (S (length (playlist r)))].
Proof.
  intros Hr Hk Hs Hi Hu Hg Hp st1 st2 l.
  assert (search qq netease ≠ []) as Hf by (by intros E; rewrite E in Hs).
  pose proof (lookup_lt_Some _ _ _ Hs) as Hlt.
  assert (store st1 !! l = Some s) as Hl.
  { subst st1. rewrite (search_song_found st e qq netease r Hr Hk Hf).
    cbn. subst l. rewrite lookup_app_r by lia.
    by replace (_ + _ - _) with (Z.to_nat i) by lia. }
  subst st2. unfold Plugin.select_song, Plugin._get_user_room.
  rewrite Hu, Hg, Hp.
  assert (rooms st1 = rooms st ∧ url_requests st1 = url_requests st ∧
          search_results st1 !! caller_key e
          = Some (seq (length (store st)) (length (search qq netease))))
    as (Hr1 & Hq1 & Hs1).
  { subst st1. rewrite (search_song_found st e qq netease r Hr Hk Hf).
    cbn. by rewrite lookup_insert_eq. }
  rewrite Hr1, Hr, Hs1. rewrite length_seq.
  replace ((i <? 0) || (Z.of_nat (length (search qq netease)) <=? i))%Z
    with false by lia.
  rewrite lookup_seq_lt by done. fold l.
  unfold Plugin.fetch_url. rewrite Hl. cbn. rewrite Hq1.
  split; [apply lookup_insert_eq|].
  split; [apply list_lookup_insert_eq; by apply lookup_lt_Some in Hl|].
  split; [done|]. split; [apply lookup_delete_eq|].
  rewrite length_app. cbn. by rewrite Nat.add_1_r.
Qed.
End SearchSelect.

(** ** The further laws on the concrete session *)

Lemma no_links_are_empty : ∀ (n : nat) (id : string), offline n id ≠ Some "".
Proof. intros n id. discriminate. Qed.

(** X1, witness: a play command in a group that has no room. *)
Lemma no_room_no_change_witness :
  (Plugin.handle offline offline as_is library (session playing_one)
     (Play, elsewhere "owner" "播放")).1 = session playing_one.
Proof.
  exact (proj1 (no_room_no_change offline offline as_is library (session playing_one)
                  Play (elsewhere "owner" "播放") ltac:(by_computation)
                  ltac:(discriminate))).
Defined.

(** X2, witness: a room opened in another group. *)
Lemma other_groups_untouched_witness :
  rooms (Plugin.handle offline offline as_is library (session playing_one)
           (CreateRoom 5, elsewhere "owner" "创建房间")).1 !! "room_g1"
  = rooms (session playing_one) !! "room_g1".
Proof.
  exact (other_groups_untouched offline offline as_is library (session playing_one)
           (CreateRoom 5) (elsewhere "owner" "创建房间") "room_g1"
           ltac:(discriminate)).
Defined.

(** X3, witness: a guest searches while the owner has pending results. *)
Lemma other_callers_pending_untouched_witness :
  search_results
    (Plugin.handle offline offline as_is library (session searched)
       (SearchSong [track "m9"] [], says "guest" "点歌 dawn")).1 !! "owner_g1"
  = search_results (session searched) !! "owner_g1".
Proof.
  exact (other_callers_pending_untouched offline offline as_is library
           (session searched) (SearchSong [track "m9"] [])
           (says "guest" "点歌 dawn") "owner_g1" ltac:(discriminate)).
Defined.

(** X4, witness: a stranger removes a song as the owner would. *)
Lemma playback_ignores_sender_witness :
  Plugin.handle offline offline as_is library (session playing_one)
    (RemoveSong, says "stranger" "移除 1")
  = Plugin.handle offline offline as_is library (session playing_one)
      (RemoveSong, says "owner" "移除 1").
Proof.
  exact (playback_ignores_sender offline offline as_is library (session playing_one)
           RemoveSong (says "owner" "移除 1") (says "stranger" "移除 1")
           eq_refl eq_refl eq_refl).
Defined.

(** X5, witness: a join without a room, by the owner, by a guest, and by the guest again. *)
Lemma join_room_adds_once_witness :
  Plugin.join_room init (says "guest" "加入房间") = (init, [NoRoomToJoin]) ∧
  Plugin.join_room (session opened) (says "owner" "加入房间")
  = (session opened, [AlreadyInRoom]) ∧
  (Plugin.join_room (session playing_one) (says "guest" "加入房间")).2
  = [Joined "guest" 2] ∧
  Plugin.join_room (session with_guest) (says "guest" "加入房间")
  = (session with_guest, [AlreadyInRoom]).
Proof.
  destruct (join_room_adds_once init (says "guest" "加入房间"))
    as (Hnone & _ & _).
  destruct (join_room_adds_once (session opened) (says "owner" "加入房间"))
    as (_ & Hin & _).
  destruct (join_room_adds_once (session playing_one)
              (says "guest" "加入房间")) as (_ & _ & Hnew).
  destruct (Hnew (room_with [0%nat] 0 true) ltac:(by_computation)
              ltac:(by_computation)) as [H1 H2].
  split; [exact (Hnone ltac:(by_computation))|].
  split; [exact (Hin (room_with [] (-1) false) ltac:(by_computation)
                   ltac:(by_computation))|].
  split; [by rewrite H1|exact H2].
Defined.

(** X6, witness: the owner, the guest and a stranger ask to leave. *)
Lemma leave_room_removes_caller_witness :
  Plugin.leave_room (session with_guest) (says "owner" "退出房间")
  = (session with_guest, [OwnerMustClose]) ∧
  (Plugin.leave_room (session with_guest) (says "guest" "退出房间")).1
  = session playing_one ∧
  (Plugin.leave_room (session playing_one) (says "stranger" "退出房间")).2
  = [Left "stranger"].
Proof.
  destruct (leave_room_removes_caller (session with_guest)
              (says "owner" "退出房间")) as (_ & Hown & _).
  destruct (leave_room_removes_caller (session with_guest)
              (says "guest" "退出房间")) as (_ & _ & Hg).
  destruct (leave_room_removes_caller (session playing_one)
              (says "stranger" "退出房间")) as (_ & _ & Hs).
  split.
  { exact (Hown (with_members (room_with [0%nat] 0 true)
                   [("owner", "owner"); ("guest", "guest")])
             ltac:(by_computation) eq_refl). }
  destruct (Hg (with_members (room_with [0%nat] 0 true)
                  [("owner", "owner"); ("guest", "guest")])
              ltac:(by_computation) ltac:(discriminate)) as [H1 _].
  destruct (Hs (room_with [0%nat] 0 true) ltac:(by_computation)
              ltac:(discriminate)) as [H2 _].
  split; [rewrite H1; by_computation|by rewrite H2].
Defined.

(** X7, witness: the guest joins the playing room and leaves it. *)
Lemma join_then_leave_restores_witness :
  (Plugin.leave_room
     (Plugin.join_room (session playing_one) (says "guest" "加入房间")).1
     (says "guest" "加入房间")).1 = session playing_one.
Proof.
  exact (join_then_leave_restores (session playing_one)
           (says "guest" "加入房间") (room_with [0%nat] 0 true)
           ltac:(by_computation) ltac:(discriminate) ltac:(by_computation)
           ltac:(by_computation)).
Defined.

(** X8, witness: the room after the guest has joined. *)
Lemma rooms_well_kept_witness :
  well_kept (with_members (room_with [0%nat] 0 true)
               [("owner", "owner"); ("guest", "guest")]).
Proof.
  exact (rooms_well_kept offline offline as_is library with_guest "room_g1" _
           ltac:(by_computation)).
Defined.

(** X9, witness: the guest and then the owner close the room. *)
Lemma close_room_evicts_members_witness :
  Plugin.close_room (session with_guest) (says "guest" "关闭房间")
  = (session with_guest, [OnlyOwnerCloses]) ∧
  rooms (Plugin.close_room (session with_guest)
           (says "owner" "关闭房间")).1 = ∅ ∧
  user_room_map (Plugin.close_room (session with_guest)
                   (says "owner" "关闭房间")).1 !! "guest_g1" = None.
Proof.
  destruct (close_room_evicts_members (session with_guest)
              (says "guest" "关闭房间")) as (_ & Hother & _).
  destruct (close_room_evicts_members (session with_guest)
              (says "owner" "关闭房间")) as (_ & _ & Hown).
  destruct (Hown (with_members (room_with [0%nat] 0 true)
                    [("owner", "owner"); ("guest", "guest")])
              ltac:(by_computation) eq_refl) as (_ & H1 & H2 & _).
  split.
  { exact (Hother (with_members (room_with [0%nat] 0 true)
                     [("owner", "owner"); ("guest", "guest")])
             ltac:(by_computation) ltac:(discriminate)). }
  split; [rewrite H1; by_computation|].
  refine (H2 "guest" _). cbn. apply elem_of_cons. right.
  apply elem_of_cons. by left.
Defined.

(** X10, witness: three unplayed songs, and an emptied room. *)
Lemma next_prev_land_on_a_song_witness :
  (Room.next_song (room_with [0; 4; 5]%nat (-1) false) 0).2 = Some 0%nat ∧
  (Room.prev_song (room_with [0; 4; 5]%nat (-1) false)).2 = Some 4%nat ∧
  Room.next_song (room_with [] 0 true) 0 = (room_with [] 0 true, None).
Proof.
  destruct (next_prev_land_on_a_song (room_with [0; 4; 5]%nat (-1) false) 0)
    as [Hsongs _].
  destruct (Hsongs ltac:(discriminate)) as (_ & H1 & _ & _ & H2 & _).
  destruct (next_prev_land_on_a_song (room_with [] 0 true) 0) as [_ Hnone].
  split; [rewrite H1; by_computation|].
  split; [rewrite H2; by_computation|exact (proj1 (Hnone eq_refl))].
Defined.

(** X11, witness: in random mode the song that is current can come again. *)
Lemma random_next_reaches_every_index_witness :
  ∃ draw,
    current_index
      (Room.next_song (with_play_mode (room_with [0; 4; 5]%nat 2 false)
                         "random") draw).1 = 2%Z.
Proof.
  destruct (random_next_reaches_every_index
              (with_play_mode (room_with [0; 4; 5]%nat 2 false) "random")
              ltac:(discriminate) eq_refl) as [_ Hall].
  destruct (Hall 2%Z ltac:(unfold plen; cbn; lia)) as (draw & H & _).
  by exists draw.
Defined.

(** X12, witness: CPython 3.11 reads the number twelve between two words. *)
Lemma parse_index_reads_printed_number_witness :
  Plugin.parse_index library ("切歌 " +:+ str 12 +:+ " 首") = Some 11%Z.
Proof.
  exact (parse_index_reads_printed_number unicode_14 4300 "切歌 " 12 " 首"
           ltac:(lia) ltac:(right; by_computation) ltac:(by_computation)
           ltac:(by_computation)).
Defined.

(** X13, witness: a message without digits, a number too long for
    CPython 3.11, and a full-width three. *)
Lemma parse_index_none_or_at_least_minus_one_witness :
  library "下一首" = NoMatch ∧
  (library ("移除 " +:+ overlong) = ValueError ∧
   (0 < 4300 < Z.of_nat (length (Py.code_points ("移除 " +:+ overlong))))%Z) ∧
  (Plugin.parse_index library "切歌 ３" = Some 2%Z ∧ (-1 ≤ 2)%Z).
Proof.
  destruct (parse_index_none_or_at_least_minus_one unicode_14 4300 "下一首")
    as (Hnone & _ & _).
  destruct (parse_index_none_or_at_least_minus_one unicode_14 4300
              ("移除 " +:+ overlong)) as (_ & Hlong & _).
  destruct (parse_index_none_or_at_least_minus_one unicode_14 4300 "切歌 ３")
    as (_ & _ & Hlow).
  split.
  { apply Hnone.
    assert (Py.code_points "下一首" = [19979; 19968; 39318]%Z) as ->
      by by_computation.
    repeat (constructor; [by_computation|]). constructor. }
  split.
  { assert (library ("移除 " +:+ overlong) = ValueError) as H
      by by_computation.
    split; [exact H|exact (Hlong H)]. }
  assert (Plugin.parse_index library "切歌 ３" = Some 2%Z) as H
    by by_computation.
  split; [exact H|exact (Hlow 2%Z H)].
Defined.

(** X14, witness: a selected song of the three, and a pending hit. *)
Lemma songs_have_links_once_selected_witness :
  (∃ s, store (session three_songs) !! 4%nat = Some s ∧ url s ≠ "") ∧
  (∃ s, store (session searched) !! 2%nat = Some s ∧ url s = "").
Proof.
  destruct (songs_have_links_once_selected offline offline as_is library
              no_links_are_empty no_links_are_empty three_songs)
    as [Hplayed _].
  destruct (songs_have_links_once_selected offline offline as_is library
              no_links_are_empty no_links_are_empty searched)
    as [_ Hpending].
  split.
  - apply (Hplayed "room_g1" (room_with [0; 4; 5]%nat (-1) false) 4%nat);
      [by_computation|].
    apply elem_of_cons. right. apply elem_of_cons. by left.
  - apply (Hpending "owner_g1" [0; 1; 2]%nat 2%nat); [by_computation|].
    do 2 (apply elem_of_cons; right). apply elem_of_cons. by left.
Defined.

(** X15, witness: playback over three selected songs. *)
Lemma only_selection_asks_the_network_witness :
  url_requests
    (Plugin.handle offline offline as_is library (session three_songs)
       (Play, says "owner" "播放")).1
  = url_requests (session three_songs).
Proof.
  exact (proj1 (only_selection_asks_the_network offline offline as_is library
                  no_links_are_empty no_links_are_empty three_songs Play
                  (says "owner" "播放")) ltac:(discriminate)).
Defined.

(** X16, witness: a second selection leaves the first song as it is. *)
Lemma links_are_never_overwritten_witness :
  store
    (Plugin.handle offline offline as_is library (session one_song)
       (SelectSong, says "owner" "选歌 1")).1 !! 0%nat
  = Some (with_url (qq_song (track "m1"))
            "https://y.qq.com/n/ryqq/songDetail/m1").
Proof.
  exact (links_are_never_overwritten offline offline as_is library
           no_links_are_empty no_links_are_empty one_song SelectSong
           (says "owner" "选歌 1") 0%nat _ ltac:(by_computation)
           ltac:(discriminate)).
Defined.

(** X17, witness: one QQ hit against two NetEase hits, and none against two. *)
Lemma search_first_provider_wins_witness :
  search [track "m1"] [track "n1"; track "n2"] = [qq_song (track "m1")] ∧
  search [] [track "n1"; track "n2"]
  = [netease_song (track "n1"); netease_song (track "n2")].
Proof.
  destruct (search_first_provider_wins [track "m1"] [track "n1"; track "n2"])
    as (H1 & _).
  destruct (search_first_provider_wins [] [track "n1"; track "n2"])
    as (_ & H2 & _).
  split; [exact (H1 ltac:(discriminate))|exact (H2 eq_refl)].
Defined.

(** X18, witness: both providers down. *)
Lemma get_song_url_falls_back_to_page_witness :
  Plugin.get_song_url offline offline 3 (qq_song (track "m1"))
  = "https://y.qq.com/n/ryqq/songDetail/m1" ∧
  Plugin.get_song_url offline offline 3 (netease_song (track "77"))
  = "https://music.163.com/song?id=77".
Proof.
  destruct (get_song_url_falls_back_to_page offline offline 3
              (qq_song (track "m1"))) as (H1 & _).
  destruct (get_song_url_falls_back_to_page offline offline 3
              (netease_song (track "77"))) as (_ & H2 & _).
  split; [exact (H1 eq_refl)|exact (H2 ltac:(discriminate))].
Defined.

(** X19, witness: the third hit is selected. *)
Lemma song_metadata_is_immutable_witness :
  ∃ link,
    store
      (Plugin.handle offline offline as_is library (session searched)
         (SelectSong, says "owner" "选歌 3")).1 !! 2%nat
    = Some (with_url (qq_song (track "m3")) link).
Proof.
  exact (song_metadata_is_immutable offline offline as_is library (session searched)
           SelectSong (says "owner" "选歌 3") 2%nat (qq_song (track "m3"))
           ltac:(by_computation)).
Defined.

(** X20, witness: no number, a number too long to be read, number zero,
    number two of three, and number three in full-width form. *)
Lemma skip_to_moves_or_refuses_witness :
  Plugin.skip_to offline offline library (session three_songs)
    (says "guest" "切歌")
  = (session three_songs, [BadNumber "/切歌 3"]) ∧
  Plugin.skip_to offline offline library (session three_songs)
    (says "guest" ("切歌 " +:+ overlong))
  = (session three_songs, [BadNumber "/切歌 3"]) ∧
  Plugin.skip_to offline offline library (session three_songs)
    (says "guest" "切歌 0")
  = (session three_songs, [IndexOutOfRange]) ∧
  (∃ link,
     (Plugin.skip_to offline offline library (session three_songs)
        (says "guest" "切歌 2")).2 = [SkippedTo 1 4%nat link] ∧
     rooms (Plugin.skip_to offline offline library (session three_songs)
              (says "guest" "切歌 2")).1 !! "room_g1"
     = Some (room_with [0; 4; 5]%nat 1 false)) ∧
  (∃ link,
     (Plugin.skip_to offline offline library (session three_songs)
        (says "guest" "切歌 ３")).2 = [SkippedTo 2 5%nat link] ∧
     rooms (Plugin.skip_to offline offline library (session three_songs)
              (says "guest" "切歌 ３")).1 !! "room_g1"
     = Some (room_with [0; 4; 5]%nat 2 false)).
Proof.
  pose proof (fun message =>
    skip_to_moves_or_refuses offline offline library (session three_songs)
      (says "guest" message) (room_with [0; 4; 5]%nat (-1) false)
      ltac:(by_computation)) as H.
  destruct (H "切歌") as (Hnone & _ & _).
  destruct (H ("切歌 " +:+ overlong)) as (Hlong & _ & _).
  destruct (H "切歌 0") as (_ & Hout & _).
  destruct (H "切歌 2") as (_ & _ & Hin).
  destruct (Hin 1%Z ltac:(by_computation) ltac:(unfold plen; cbn; lia))
    as (song & link & Hsong & Hreply & Hroom & _).
  destruct (H "切歌 ３") as (_ & _ & Hwide).
  destruct (Hwide 2%Z ltac:(by_computation) ltac:(unfold plen; cbn; lia))
    as (song' & link' & Hsong' & Hreply' & Hroom' & _).
  split; [exact (Hnone ltac:(by_computation))|].
  split; [exact (Hlong ltac:(by_computation))|].
  split; [exact (Hout (-1)%Z ltac:(by_computation)
                   ltac:(unfold plen; cbn; lia))|].
  split.
  - exists link. vm_compute in Hsong. injection Hsong as <-.
    split; [exact Hreply|exact Hroom].
  - exists link'. vm_compute in Hsong'. injection Hsong' as <-.
    split; [exact Hreply'|exact Hroom'].
Defined.

(** X21, witness: the guest and then the owner clear the list. *)
Lemma clear_playlist_resets_room_witness :
  Plugin.clear_playlist (session with_guest) (says "guest" "清空列表")
  = (session with_guest, [OnlyOwnerClears]) ∧
  rooms (Plugin.clear_playlist (session with_guest)
           (says "owner" "清空列表")).1 !! "room_g1"
  = Some (with_members (room_with [] (-1) false)
            [("owner", "owner"); ("guest", "guest")]) ∧
  (Plugin.handle offline offline as_is library
     (Plugin.clear_playlist (session with_guest)
        (says "owner" "清空列表")).1 (Play, says "guest" "播放")).2
  = [PlaylistEmptyAddFirst].
Proof.
  destruct (clear_playlist_resets_room offline offline as_is library
              (session with_guest) (says "guest" "清空列表")
              (with_members (room_with [0%nat] 0 true)
                 [("owner", "owner"); ("guest", "guest")])
              ltac:(by_computation)) as [Hother _].
  destruct (clear_playlist_resets_room offline offline as_is library
              (session with_guest) (says "owner" "清空列表")
              (with_members (room_with [0%nat] 0 true)
                 [("owner", "owner"); ("guest", "guest")])
              ltac:(by_computation)) as [_ Hown].
  destruct (Hown eq_refl) as (H1 & _ & H3).
  destruct (H3 (says "guest" "播放") 0%nat eq_refl) as (_ & Hplay & _).
  split; [exact (Hother ltac:(discriminate))|].
  split; [rewrite H1; by_computation|by rewrite Hplay].
Defined.

(** X22, witness: the word for random, and an unknown word. *)
Lemma set_play_mode_switches_or_reports_witness :
  (Plugin.set_play_mode as_is (session one_song) (says "guest" "随机")).2
  = [ModeRandom] ∧
  Plugin.set_play_mode as_is (session one_song) (says "guest" "shuffle")
  = (session one_song, [ModeQuery "sequence"]).
Proof.
  destruct (set_play_mode_switches_or_reports as_is (session one_song)
              (says "guest" "随机") (room_with [0%nat] (-1) false)
              ltac:(by_computation)) as (_ & Hrandom & _).
  destruct (set_play_mode_switches_or_reports as_is (session one_song)
              (says "guest" "shuffle") (room_with [0%nat] (-1) false)
              ltac:(by_computation)) as (_ & _ & Hother).
  split.
  - rewrite Hrandom; [done|]. cbn. by left.
  - refine (proj1 (Hother _)). cbn. intros H.
    repeat (apply elem_of_cons in H as [H|H]; [discriminate|]).
    by apply elem_of_nil in H.
Defined.

(** X23, witness: three minutes thirty-five. *)
Lemma format_duration_is_faithful_witness :
  (∃ ss, _format_duration 215 = str 3 +:+ ":" +:+ ss ∧
         numeral_value ss 0 = 35%Z) ∧
  (_format_duration 215 = _format_duration (3 * 60 + 35) →
   215 = 3 * 60 + 35)%Z.
Proof.
  destruct format_duration_is_faithful as [Hshown Hinj].
  destruct (Hshown 215%Z) as (ss & H1 & _ & H2 & _ & _).
  split; [exists ss; split; [exact H1|exact H2]|].
  exact (Hinj 215%Z (3 * 60 + 35)%Z).
Defined.

(** X24, witness: the guest selects from the search the owner made. *)
Lemma pending_results_belong_to_their_caller_witness :
  Plugin.select_song offline offline library (session searched)
    (says "guest" "选歌 1")
  = (session searched, [NoPendingSearch]).
Proof.
  destruct (pending_results_belong_to_their_caller offline offline as_is library
              (session opened)
              (says "owner" "点歌 sunrise")
              [track "m1"; track "m2"; track "m3"] []
              (room_with [] (-1) false) ltac:(by_computation)
              ltac:(discriminate) ltac:(discriminate)) as [_ Hother].
  exact (Hother (says "guest" "选歌 1") eq_refl ltac:(discriminate)
           ltac:(by_computation)).
Defined.

(** X25, witness: the first hit of the first search. *)
Lemma search_then_select_adds_the_hit_witness :
  rooms (session one_song) !! "room_g1"
  = Some (Room.add_song (room_with [] (-1) false) 0%nat) ∧
  store (session one_song) !! 0%nat
  = Some (with_url (qq_song (track "m1"))
            (Plugin.get_song_url offline offline 0 (qq_song (track "m1")))).
Proof.
  destruct (search_then_select_adds_the_hit offline offline as_is library
              (session opened) (says "owner" "点歌 sunrise")
              [track "m1"; track "m2"; track "m3"] []
              (room_with [] (-1) false) (says "owner" "选歌 1") 0%Z
              (qq_song (track "m1")) ltac:(by_computation)
              ltac:(discriminate) eq_refl ltac:(lia) eq_refl eq_refl
              ltac:(by_computation)) as (H1 & H2 & _).
  split; [exact H1|exact H2].
Defined.
